(** * webstore: the request handlers of [webstore/web.py]

    A shallow embedding of the handler layer of webstore (tables of
    dynamically named databases exposed as REST resources) and the
    properties of its request-to-operation translation.

    The handlers are Python functions that call into collaborators which
    are not part of [web.py]: the table handles and engine of
    [webstore.core], the codec of [webstore.formats], Flask's request
    object and SQLAlchemy.  The handlers are embedded as programs of a
    state-and-exception monad over a world made of the database registry
    and the trace of collaborator calls; the collaborators' own behaviour
    is an interface ([Collaborators]) every theorem is generic in. *)

From stdpp Require Import gmap strings list fin_maps.
From Stdlib Require Import ZArith Ascii String.

Local Open Scope string_scope.
Local Open Scope list_scope.

(** ** Python strings *)

Module Py.

(** [needle in hay] on strings: substring test. *)
Fixpoint contains (needle hay : string) : bool :=
  String.prefix needle hay ||
  match hay with
  | EmptyString => false
  | String _ rest => contains needle rest
  end.

(** The first occurrence of the separator character, if any: the text
    before it and the text after it. *)
Fixpoint partition (sep : ascii) (s : string) : option (string * string) :=
  match s with
  | EmptyString => None
  | String a rest =>
      if Ascii.eqb a sep then Some (EmptyString, rest)
      else match partition sep rest with
           | Some (l, r) => Some (String a l, r)
           | None => None
           end
  end.

(** [s.split(sep, 1)] for a one-character separator. *)
Definition split1 (sep : ascii) (s : string) : list string :=
  match partition sep s with
  | Some (l, r) => [l; r]
  | None => [s]
  end.

Definition lower_char (a : ascii) : ascii :=
  let n := nat_of_ascii a in
  if (65 <=? n)%nat && (n <=? 90)%nat then ascii_of_nat (n + 32) else a.

(** [s.lower()] on the ASCII letters. *)
Fixpoint lower (s : string) : string :=
  match s with
  | EmptyString => EmptyString
  | String a rest => String (lower_char a) (lower rest)
  end.

(** Truth value of an integer, here a length: zero is false. *)
Definition truthy_len (n : nat) : bool := negb (Nat.eqb n 0).

(** Truth value of a string: the empty string is false. *)
Definition truthy (s : string) : bool :=
  match s with
  | EmptyString => false
  | String _ _ => true
  end.

End Py.

(** ** Data model *)

(** A cell of a row. *)
Inductive Scalar :=
| SNull
| SInt (z : Z)
| SStr (s : string).

(** A row is a mapping from column names to scalars, kept in order. *)
Definition Row := list (string * Scalar).

Definition keys (row : Row) : list string := map fst row.

(** Werkzeug's [MultiDict] of query arguments: keys may repeat, and the
    values of one key keep their order. *)
Definition MultiDict := list (string * string).

Module Args.

Definition is_key (k : string) (p : string * string) : bool :=
  String.eqb (fst p) k.

Definition getlist (k : string) (d : MultiDict) : list string :=
  map snd (List.filter (is_key k) d).

Definition remove (k : string) (d : MultiDict) : MultiDict :=
  List.filter (fun p => negb (is_key k p)) d.

(** [k in d] *)
Definition mem (k : string) (d : MultiDict) : bool :=
  existsb (is_key k) d.

(** [d.get(k)]: the first value of the key. *)
Definition get (k : string) (d : MultiDict) : option string :=
  head (getlist k d).

(** [d.pop(k, None)]: the first value of the key; the key is removed
    with all its values. *)
Definition pop (k : string) (d : MultiDict) : option string * MultiDict :=
  (head (getlist k d), remove k d).

(** [d.poplist(k)]: all values of the key, which is removed. *)
Definition poplist (k : string) (d : MultiDict) : list string * MultiDict :=
  (getlist k d, remove k d).

End Args.

(** What the handlers read of Flask's [request]. *)
Record Request := {
  args : MultiDict;
  content_type : option string;
  data : string;
  accept : option string
}.

(** Modelled from the spec: [render_message] and [render_table] of
    webstore.formats are missing; a response is kept as what they are
    given to render (spec 4.1: a status envelope [{message, state, url?}]
    with its code, or a table of rows under a key order), together with
    the two inputs of format negotiation, before serialization. *)
Inductive Body :=
| Message (message state : string) (url : option string)
| Table (rows : list Row) (columns : list string).

Record Response := {
  code : Z;
  body : Body;
  format_of : option string;
  accept_of : option string
}.

Definition render_message (request : Request) (message : string)
    (format : option string) (state : string) (code : Z)
    (url : option string) : Response :=
  {| code := code; body := Message message state url;
     format_of := format; accept_of := accept request |}.

Definition render_table (request : Request) (rows : list Row)
    (columns : list string) (format : option string) : Response :=
  {| code := 200; body := Table rows columns;
     format_of := format; accept_of := accept request |}.

(** Characters [urllib.quote(s, safe='/:')] leaves as they are: ASCII
    letters, digits and [_ . - / :]. *)
Definition url_safe (a : ascii) : bool :=
  let n := nat_of_ascii a in
  ((65 <=? n)%nat && (n <=? 90)%nat)
  || ((97 <=? n)%nat && (n <=? 122)%nat)
  || ((48 <=? n)%nat && (n <=? 57)%nat)
  || Nat.eqb n 95 || Nat.eqb n 46 || Nat.eqb n 45
  || Nat.eqb n 47 || Nat.eqb n 58.

Definition hex_digit (n : nat) : ascii :=
  if (n <? 10)%nat then ascii_of_nat (48 + n) else ascii_of_nat (55 + n).

(** The quoting Werkzeug applies to a route variable when it builds a url
    ([url_quote], Python 2's [urllib.quote] with [safe='/:'] on the bytes
    of the name): every other byte becomes [%XX]. *)
Fixpoint url_quote (s : string) : string :=
  match s with
  | EmptyString => EmptyString
  | String a rest =>
      if url_safe a then String a (url_quote rest)
      else
        let n := nat_of_ascii a in
        String "%" (String (hex_digit (n / 16))
                      (String (hex_digit (n mod 16)) (url_quote rest)))
  end.

(** Whether a name is made of characters that are not quoted. *)
Fixpoint url_plain (s : string) : bool :=
  match s with
  | EmptyString => true
  | String a rest => url_safe a && url_plain rest
  end.

(** [url_for('read', database=..., table=...)]: without [format] the
    route built is [/db/<database>/<table>], each variable quoted. *)
Definition url_for_read (database table : string) : string :=
  "/db/" +:+ url_quote database +:+ "/" +:+ url_quote table.

(** Python exceptions the handlers meet.  [WebstoreException] is the
    [HTTPException] of [web.py] that carries its rendered response;
    [KeyError] and [ValueError] carry their [str()]. *)
Inductive Exn :=
| WebstoreException (response : Response)
| KeyError (text : string)
| ValueError (text : string)
| TypeError (text : string)
| OperationalError (message : string)
| OtherError (name text : string).

(** SQLAlchemy's [asc(column)] and [desc(column)]. *)
Inductive OrderBy :=
| Asc (column : string)
| Desc (column : string).

(** What [_table.table.select(clause, limit=, offset=, order_by=)] is
    given. *)
Record Statement (Clause : Type) := {
  whereclause : Clause;
  limit : option Z;
  offset : option Z;
  order_by : list OrderBy
}.
Arguments whereclause {Clause} _.
Arguments limit {Clause} _.
Arguments offset {Clause} _.
Arguments order_by {Clause} _.

(** A SQLAlchemy [ResultProxy]: the column keys and the rows left to
    fetch. *)
Record ResultProxy := {
  rp_keys : list string;
  rp_rows : list (list Scalar)
}.

(** [_result_proxy_iterator]: [fetchone] until it gives [None], each row
    zipped with the keys. *)
Fixpoint fetch_all (columns : list string) (rows : list (list Scalar)) : list Row :=
  match rows with
  | [] => []
  | row :: rest => combine columns row :: fetch_all columns rest
  end.

Definition _result_proxy_iterator (rp : ResultProxy) : list Row :=
  fetch_all (rp_keys rp) (rp_rows rp).

(** ** The collaborators

    [T] is the state of one table in the engine and [Clause] a filter
    predicate.  The table handle follows spec 4.2, the clause builder 4.3,
    the codec 4.1; [py_int] is Python's [int] on a string. *)
Class Collaborators (T Clause : Type) := {
  new_table : T;
  add_row : Row -> T -> T;
  update_row : list string -> Row -> T -> bool * T;
  commit : T -> T;
  args_to_clause : T -> MultiDict -> Exn + Clause;
  execute : T -> Statement Clause -> Exn + ResultProxy;
  engine_execute : string -> gmap string T -> (Exn + ResultProxy) * gmap string T;
  read_request : Request -> option string -> Exn + list Row;
  py_int : string -> Exn + Z
}.

(** A table handle: [db[table]]. *)
Record Handle := { h_database : string; h_table : string }.

(** The calls made to the collaborators, in order. *)
Inductive Event (Clause : Type) :=
| EvResolve (database : string)
| EvTable (h : Handle)
| EvReadRequest
| EvAddRow (h : Handle) (row : Row)
| EvUpdateRow (h : Handle) (unique : list string) (row : Row) (matched : bool)
| EvCommit (h : Handle)
| EvDrop (h : Handle)
| EvArgsToClause (h : Handle) (params : MultiDict)
| EvExecute (h : Handle) (statement : Statement Clause)
| EvSql (database : string) (text : string).
Arguments EvResolve {Clause} _.
Arguments EvTable {Clause} _.
Arguments EvReadRequest {Clause}.
Arguments EvAddRow {Clause} _ _.
Arguments EvUpdateRow {Clause} _ _ _ _.
Arguments EvCommit {Clause} _.
Arguments EvDrop {Clause} _.
Arguments EvArgsToClause {Clause} _ _.
Arguments EvExecute {Clause} _ _.
Arguments EvSql {Clause} _ _.

(** Modelled from the spec: the registry of [webstore.core] is missing.
    Spec 3: a database name resolves, creating it if absent, to one
    backing store; a table does not exist until the first write of a row
    with at least one field. *)
Record World (T Clause : Type) := {
  registry : gmap string (gmap string T);
  trace : list (Event Clause)
}.
Arguments registry {T Clause} _.
Arguments trace {T Clause} _.

(** Python objects the sort loop of [read] holds in [order]: the
    functions [asc] and [desc], or a string. *)
Inductive PyObj :=
| PyFunction (f : string -> OrderBy)
| PyStr (s : string).

(** Calling an object: a string is not callable. *)
Definition call (f : PyObj) (arg : string) : Exn + OrderBy :=
  match f with
  | PyFunction g => inr (g arg)
  | PyStr _ => inl (TypeError "'str' object is not callable")
  end.

(** The dict literal [{'asc': asc, 'desc': desc}]. *)
Definition sort_orders : gmap string PyObj :=
  {[ "asc" := PyFunction Asc; "desc" := PyFunction Desc ]}.

(** A loop body either goes on or returns from the handler. *)
Inductive Flow (A : Type) :=
| Next (a : A)
| Return (r : Response).
Arguments Next {A} _.
Arguments Return {A} _.

(** What Flask makes of a handler: its response, the response of an
    [HTTPException], or a server fault on any other exception. *)
Inductive Outcome :=
| Responded (r : Response)
| ServerFault (e : Exn).

Section Handlers.

Context {T Clause : Type} `{!Collaborators T Clause}.

(** *** State and exceptions *)

Definition M (A : Type) : Type :=
  World T Clause -> (Exn + A) * World T Clause.

Definition ret {A} (a : A) : M A := fun w => (inr a, w).

Definition bind {A B} (m : M A) (k : A -> M B) : M B :=
  fun w =>
    match m w with
    | (inr a, w') => k a w'
    | (inl e, w') => (inl e, w')
    end.

Definition raise {A} (e : Exn) : M A := fun w => (inl e, w).

Definition lift {A} (r : Exn + A) : M A := fun w => (r, w).

(** The body of a [try]: its exception, if any, is handed to the
    [except] clauses. *)
Definition attempt {A} (m : M A) : M (Exn + A) :=
  fun w => let '(r, w') := m w in (inr r, w').

Definition emit (ev : Event Clause) : M unit :=
  fun w => (inr tt, {| registry := registry w; trace := trace w ++ [ev] |}).

Local Notation "x <- m ;; k" := (bind m (fun x => k))
  (at level 100, m at next level, right associativity).
Local Notation "m ;;; k" := (bind m (fun _ => k))
  (at level 100, right associativity).

(** *** Database and table handles *)

(** Modelled from the spec: [app.db_factory.create(database)] of
    webstore.core is missing.  Spec 3: the name resolves, creating the
    database if absent, to its one backing store. *)
Definition db_factory_create (database : string) : M string :=
  fun w =>
    (inr database,
     {| registry := match registry w !! database with
                    | Some _ => registry w
                    | None => <[database := ∅]> (registry w)
                    end;
        trace := trace w ++ [EvResolve database] |}).

Definition table_state (h : Handle) (w : World T Clause) : option T :=
  registry w !! h_database h ≫= fun db => db !! h_table h.

(** [table in db] *)
Definition db_contains (db table : string) : M bool :=
  fun w =>
    (inr match table_state {| h_database := db; h_table := table |} w with
         | Some _ => true
         | None => false
         end, w).

(** Modelled from the spec: [db[table]] of webstore.core is missing; it
    gives the handle of the table, which exists once a row is written
    (spec 3). *)
Definition db_getitem (db table : string) : M Handle :=
  let h := {| h_database := db; h_table := table |} in
  emit (EvTable h) ;;; ret h.

Definition put_table (h : Handle) (f : option T -> option T)
    (w : World T Clause) : World T Clause :=
  {| registry := alter (partial_alter f (h_table h)) (h_database h) (registry w);
     trace := trace w |}.

(** Modelled from the spec: the methods of the table handle of
    webstore.core are missing.  Each is the collaborator's operation
    (spec 4.2) on the state of the handle's table, recorded on the trace:
    [add_row] creates the table at its first row, [update_row], [commit]
    and [drop] act on a table that exists. *)
Definition tbl_add_row (h : Handle) (row : Row) : M unit :=
  fun w =>
    (inr tt,
     put_table h (fun o => Some (add_row row (default new_table o)))
       {| registry := registry w; trace := trace w ++ [EvAddRow h row] |}).

Definition tbl_update_row (h : Handle) (unique : list string) (row : Row) : M bool :=
  fun w =>
    let '(matched, t) := update_row unique row (default new_table (table_state h w)) in
    (inr matched,
     put_table h (fun o => match o with Some _ => Some t | None => None end)
       {| registry := registry w;
          trace := trace w ++ [EvUpdateRow h unique row matched] |}).

Definition tbl_commit (h : Handle) : M unit :=
  fun w =>
    (inr tt,
     put_table h (fmap commit)
       {| registry := registry w; trace := trace w ++ [EvCommit h] |}).

Definition tbl_drop (h : Handle) : M unit :=
  fun w =>
    (inr tt,
     put_table h (fun _ => None)
       {| registry := registry w; trace := trace w ++ [EvDrop h] |}).

Definition tbl_args_to_clause (h : Handle) (params : MultiDict) : M Clause :=
  fun w =>
    (args_to_clause (default new_table (table_state h w)) params,
     {| registry := registry w; trace := trace w ++ [EvArgsToClause h params] |}).

(** [_table.bind.execute(statement)] *)
Definition tbl_execute (h : Handle) (statement : Statement Clause) : M ResultProxy :=
  fun w =>
    (execute (default new_table (table_state h w)) statement,
     {| registry := registry w; trace := trace w ++ [EvExecute h statement] |}).

(** [db.engine.execute(text)] *)
Definition db_engine_execute (db : string) (text : string) : M ResultProxy :=
  fun w =>
    let '(r, tables) := engine_execute text (default ∅ (registry w !! db)) in
    (r, {| registry := <[db := tables]> (registry w);
           trace := trace w ++ [EvSql db text] |}).

(** [read_request(request, format)]: the reader is taken as the sequence
    of rows it yields. *)
Definition do_read_request (request : Request) (format : option string) : M (list Row) :=
  emit EvReadRequest ;;; lift (read_request request format).

(** *** The handlers of [web.py] *)

Definition _get_table (request : Request) (database table : string)
    (format : option string) : M Handle :=
  db <- db_factory_create database ;;
  present <- db_contains db table ;;
  if negb present then
    raise (WebstoreException
             (render_message request ("No such table: " +:+ table)
                format "error" 404 None))
  else db_getitem db table.

Definition sql (request : Request) (database : string)
    (format : option string) : M Response :=
  if negb (bool_decide (content_type request = Some "text/sql")) then
    raise (WebstoreException
             (render_message request "Only text/sql content is supported"
                format "error" 400 None))
  else
    db <- db_factory_create database ;;
    results <- db_engine_execute db (data request) ;;
    ret (render_table request (_result_proxy_iterator results)
           (rp_keys results) format).

(** [for row in reader: if len(row.keys()): _table.add_row(row)] *)
Fixpoint create_rows (_table : Handle) (reader : list Row) : M unit :=
  match reader with
  | [] => ret tt
  | row :: rest =>
      (if Py.truthy_len (List.length (keys row)) then tbl_add_row _table row
       else ret tt) ;;;
      create_rows _table rest
  end.

Definition create_named (request : Request) (database table : string)
    (format : option string) : M Response :=
  db <- db_factory_create database ;;
  present <- db_contains db table ;;
  if present then
    ret (render_message request ("Table already exists: " +:+ table)
           format "error" 409 (Some (url_for_read database table)))
  else
    _table <- db_getitem db table ;;
    reader <- do_read_request request format ;;
    create_rows _table reader ;;;
    tbl_commit _table ;;;
    ret (render_message request ("Successfully created: " +:+ table)
           format "success" 201 (Some (url_for_read database table))).

Definition create (request : Request) (database : string)
    (format : option string) : M Response :=
  if negb (Args.mem "table" (args request)) then
    ret (render_message request "Missing argument: table"
           format "error" 400 None)
  else
    match Args.get "table" (args request) with
    | Some table => create_named request database table format
    | None => raise (OtherError "TypeError" "table is None")
    end.

(** The [_sort] loop of [read]. *)
Fixpoint read_sorts (request : Request) (format : option string)
    (values : list string) (sorts : list OrderBy) : Exn + Flow (list OrderBy) :=
  match values with
  | [] => inr (Next sorts)
  | sort :: rest =>
      if negb (Py.contains ":" sort) then
        inr (Return (render_message request
                       "Invalid sorting format, use: order:column"
                       format "error" 400 None))
      else
        match Py.split1 ":" sort with
        | [order; column] =>
            let order := default (PyStr "asc") (sort_orders !! Py.lower order) in
            match call order column with
            | inr term => read_sorts request format rest (sorts ++ [term])
            | inl e => inl e
            end
        | _ => inl (ValueError "need more than 1 value to unpack")
        end
  end.

(** [int(v) if v else None] *)
Definition int_or_none (v : option string) : Exn + option Z :=
  match v with
  | Some s =>
      if Py.truthy s then
        match py_int s with
        | inr n => inr (Some n)
        | inl e => inl e
        end
      else inr None
  | None => inr None
  end.

(** The arguments of [select], evaluated left to right. *)
Definition select (clause : Clause) (limit offset : option string)
    (sorts : list OrderBy) : Exn + Statement Clause :=
  match int_or_none limit with
  | inl e => inl e
  | inr l =>
      match int_or_none offset with
      | inl e => inl e
      | inr o =>
          inr {| whereclause := clause; limit := l; offset := o;
                 order_by := sorts |}
      end
  end.

Definition read (request : Request) (database table : string)
    (format : option string) : M Response :=
  _table <- _get_table request database table format ;;
  let params := args request in
  let '(limit, params) := Args.pop "_limit" params in
  let '(offset, params) := Args.pop "_offset" params in
  let '(sort_values, params) := Args.poplist "_sort" params in
  match read_sorts request format sort_values [] with
  | inl e => raise e
  | inr (Return r) => ret r
  | inr (Next sorts) =>
      c <- attempt (tbl_args_to_clause _table params) ;;
      match c with
      | inl (KeyError ke) =>
          ret (render_message request ("Invalid filter: " +:+ ke)
                 format "error" 400 None)
      | inl e => raise e
      | inr clause =>
          match select clause limit offset sorts with
          | inl (ValueError ve) =>
              ret (render_message request ("Invalid value: " +:+ ve)
                     format "error" 400 None)
          | inl e => raise e
          | inr statement =>
              r <- attempt (tbl_execute _table statement) ;;
              match r with
              | inl (OperationalError message) =>
                  ret (render_message request ("Invalid query: " +:+ message)
                         format "error" 400 None)
              | inl e => raise e
              | inr results =>
                  ret (render_table request (_result_proxy_iterator results)
                         (rp_keys results) format)
              end
          end
      end
  end.

(** The row loop of [update]. *)
Fixpoint update_rows (_table : Handle) (unique : list string)
    (reader : list Row) : M unit :=
  match reader with
  | [] => ret tt
  | row :: rest =>
      (if negb (Py.truthy_len (List.length (keys row))) then ret tt
       else
         matched <- tbl_update_row _table unique row ;;
         if negb matched then tbl_add_row _table row else ret tt) ;;;
      update_rows _table unique rest
  end.

Definition update (request : Request) (database table : string)
    (format : option string) : M Response :=
  _table <- _get_table request database table format ;;
  let unique := Args.getlist "unique" (args request) in
  reader <- do_read_request request format ;;
  update_rows _table unique reader ;;;
  tbl_commit _table ;;;
  ret (render_message request ("Table updated: " +:+ table)
         format "success" 201 (Some (url_for_read database table))).

Definition delete (request : Request) (database table : string)
    (format : option string) : M Response :=
  _table <- _get_table request database table format ;;
  tbl_drop _table ;;;
  tbl_commit _table ;;;
  ret (render_message request ("Table dropped: " +:+ table)
         format "success" 410 None).

(** Flask's dispatch of a handler's result. *)
Definition dispatch (handler : M Response) (w : World T Clause)
    : Outcome * World T Clause :=
  match handler w with
  | (inr r, w') => (Responded r, w')
  | (inl (WebstoreException r), w') => (Responded r, w')
  | (inl e, w') => (ServerFault e, w')
  end.

End Handlers.

(** ** Properties of the handlers *)

Section Properties.

Context {T Clause : Type} `{!Collaborators T Clause}.

Implicit Types (w : World T Clause) (h : Handle) (request : Request).
Implicit Types (database table : string) (format : option string).

Definition handle (database table : string) : Handle :=
  {| h_database := database; h_table := table |}.

(** The world once [database] is resolved. *)
Definition resolved (database : string) w : World T Clause :=
  snd (db_factory_create database w).

(** The world with more calls on its trace. *)
Definition traced w (evs : list (Event Clause)) : World T Clause :=
  {| registry := registry w; trace := trace w ++ evs |}.

Lemma traced_traced w evs evs' :
  traced (traced w evs) evs' = traced w (evs ++ evs').
Proof. unfold traced; simpl. by rewrite <- app_assoc. Qed.

Lemma table_state_traced h w evs :
  table_state h (traced w evs) = table_state h w.
Proof. reflexivity. Qed.

Lemma table_state_traced' h w (evs : list (Event Clause)) :
  table_state h {| registry := registry w; trace := evs |} = table_state h w.
Proof. reflexivity. Qed.

(** Resolving a database leaves every table as it is. *)
Lemma table_state_resolved h database w :
  table_state h (resolved database w) = table_state h w.
Proof.
  unfold resolved, table_state; simpl.
  destruct (registry w !! database) eqn:E; [done|].
  destruct (decide (database = h_database h)) as [->|Hne].
  - rewrite lookup_insert_eq, E. simpl. apply lookup_empty.
  - by rewrite lookup_insert_ne.
Qed.

(** Resolving the database of an existing table changes nothing. *)
Lemma resolved_existing database table w t :
  table_state (handle database table) w = Some t ->
  resolved database w = traced w [EvResolve database].
Proof.
  unfold resolved, table_state, traced; simpl.
  destruct (registry w !! database); [done|discriminate].
Qed.

Lemma db_factory_create_eq database w :
  db_factory_create database w = (inr database, resolved database w).
Proof. reflexivity. Qed.

Lemma get_table_missing request database table format w :
  table_state (handle database table) w = None ->
  _get_table request database table format w =
    (inl (WebstoreException
            (render_message request ("No such table: " +:+ table)
               format "error" 404 None)),
     resolved database w).
Proof.
  intros Hnone. unfold _get_table, bind, db_contains.
  rewrite db_factory_create_eq.
  change {| h_database := database; h_table := table |}
    with (handle database table).
  by rewrite table_state_resolved, Hnone.
Qed.

Lemma get_table_existing request database table format w t :
  table_state (handle database table) w = Some t ->
  _get_table request database table format w =
    (inr (handle database table),
     traced w [EvResolve database; EvTable (handle database table)]).
Proof.
  intros Hsome. unfold _get_table, bind, db_contains.
  rewrite db_factory_create_eq.
  change {| h_database := database; h_table := table |}
    with (handle database table).
  rewrite table_state_resolved, Hsome. simpl.
  rewrite (resolved_existing _ _ _ _ Hsome).
  unfold db_getitem, bind, emit, ret, traced; simpl.
  by rewrite <- app_assoc.
Qed.

(** *** The url of a resource *)

Lemma url_quote_plain (s : string) : url_plain s = true -> url_quote s = s.
Proof.
  induction s as [|a s IH]; [done|]. cbn [url_plain url_quote].
  intros [Ha Hs]%andb_prop. by rewrite Ha, IH.
Qed.

(** For names of letters, digits and [_ . - / :], the url of the resource
    is [/db/<database>/<table>] as it reads. *)
Lemma url_for_read_plain (database table : string) :
  url_plain database = true ->
  url_plain table = true ->
  url_for_read database table = "/db/" +:+ database +:+ "/" +:+ table.
Proof.
  intros Hd Ht. unfold url_for_read. by rewrite !url_quote_plain.
Qed.

(** *** Reading a table that is not there *)

(** C4. A GET read of a table that does not exist in the resolved
    database is answered by the 404 envelope "No such table", whatever
    the query arguments of the request are (malformed [_sort], [_limit],
    [_offset] or filters included): nothing but the resolution of the
    database happens. *)
Theorem read_missing_table_is_404 request database table format w :
  table_state (handle database table) w = None ->
  dispatch (read request database table format) w =
    (Responded (render_message request ("No such table: " +:+ table)
                  format "error" 404 None),
     resolved database w)
  /\ code (render_message request ("No such table: " +:+ table)
             format "error" 404 None) = 404%Z
  /\ trace (resolved database w) = trace w ++ [EvResolve database].
Proof.
  intros Hnone. split; [|done].
  unfold dispatch, read, bind.
  by rewrite (get_table_missing _ _ _ _ _ Hnone).
Qed.

(** *** Creating a table that exists *)

Lemma create_named_existing request database table format w t :
  table_state (handle database table) w = Some t ->
  create_named request database table format w =
    (inr (render_message request ("Table already exists: " +:+ table)
            format "error" 409 (Some (url_for_read database table))),
     traced w [EvResolve database]).
Proof.
  intros Hsome. unfold create_named, bind, db_contains.
  rewrite db_factory_create_eq.
  change {| h_database := database; h_table := table |}
    with (handle database table).
  rewrite table_state_resolved, Hsome. simpl.
  by rewrite (resolved_existing _ _ _ _ Hsome).
Qed.

(** [create] forwards to [create_named] with the [table] argument. *)
Lemma create_forwards request database table format :
  Args.get "table" (args request) = Some table ->
  create request database format =
    create_named request database table format.
Proof.
  intros Hget. unfold create. rewrite Hget.
  replace (Args.mem "table" (args request)) with true; [done|].
  unfold Args.get, Args.getlist, Args.mem in *.
  induction (args request) as [|p d IH]; [done|]. simpl in *.
  destruct (Args.is_key "table" p); [done|]. by apply IH.
Qed.

(** Calls that decode the body or write to a table. *)
Definition decodes_or_writes (ev : Event Clause) : bool :=
  match ev with
  | EvReadRequest | EvAddRow _ _ | EvUpdateRow _ _ _ _
  | EvCommit _ | EvDrop _ | EvSql _ _ => true
  | _ => false
  end.

(** C3. A POST create on a table that already exists is answered 409
    with the url of the existing resource; the registry, and so the
    table's data, is what it was, and the only call made is the
    resolution of the database: no row is added, nothing is committed.
    The same holds of a POST on the database root that names the table
    in its [table] argument.  For names that need no quoting the url is
    [/db/<database>/<table>]. *)
Theorem create_existing_is_409 request database table format w t :
  table_state (handle database table) w = Some t ->
  let '(out, w') := dispatch (create_named request database table format) w in
  out = Responded
          (render_message request ("Table already exists: " +:+ table)
             format "error" 409 (Some (url_for_read database table)))
  /\ registry w' = registry w
  /\ table_state (handle database table) w' = Some t
  /\ trace w' = trace w ++ [EvResolve database]
  /\ (Args.get "table" (args request) = Some table ->
      dispatch (create request database format) w = (out, w'))
  /\ (url_plain database = true -> url_plain table = true ->
      out = Responded
              (render_message request ("Table already exists: " +:+ table)
                 format "error" 409
                 (Some ("/db/" +:+ database +:+ "/" +:+ table)))).
Proof.
  intros Hsome.
  destruct (dispatch (create_named request database table format) w)
    as [out w'] eqn:Hrun.
  assert (Hrun' := Hrun). unfold dispatch in Hrun'.
  rewrite (create_named_existing _ _ _ _ _ _ Hsome) in Hrun'.
  injection Hrun' as <- <-.
  split; [done|]. split; [done|]. split; [done|]. split; [done|]. split.
  - intros Hget. by rewrite (create_forwards _ _ _ _ Hget).
  - intros Hd Ht. by rewrite (url_for_read_plain _ _ Hd Ht).
Qed.

(** C9. A POST create on a table that already exists never reaches
    [read_request]: even when the body cannot be decoded in its declared
    content type (the codec would raise), the answer is the 409 envelope,
    and no decoding, write or commit is among the calls made. *)
Theorem create_existing_never_decodes request database table format w t e :
  table_state (handle database table) w = Some t ->
  read_request request format = inl e ->
  exists evs,
    dispatch (create_named request database table format) w =
      (Responded
         (render_message request ("Table already exists: " +:+ table)
            format "error" 409 (Some (url_for_read database table))),
       traced w evs)
    /\ forallb (fun ev => negb (decodes_or_writes ev)) evs = true.
Proof.
  intros Hsome _. exists [EvResolve database]. split; [|done].
  unfold dispatch. by rewrite (create_named_existing _ _ _ _ _ _ Hsome).
Qed.

(** *** Raw SQL *)

Lemma result_proxy_iterator_map (rp : ResultProxy) :
  _result_proxy_iterator rp = map (combine (rp_keys rp)) (rp_rows rp).
Proof.
  unfold _result_proxy_iterator.
  induction (rp_rows rp) as [|row rows IH]; [done|].
  cbn [fetch_all map]. by rewrite IH.
Qed.

(** C5. A PUT on a database root whose content type is [text/sql]
    resolves the database, hands the request body as it is to the engine
    and renders the engine's result set, each fetched row as the mapping
    of the result's keys to its cells, under those keys (an exception of
    the engine leaves the handler); with any other content type the
    answer is the 400 envelope and the world is untouched: the database
    is not resolved and nothing is executed.  So the body is executed if
    and only if the content type is [text/sql]. *)
Theorem sql_only_for_text_sql request database format w :
  (content_type request = Some "text/sql" ->
     let '(r, tables) :=
       engine_execute (data request)
         (default ∅ (registry (resolved database w) !! database)) in
     let w' := {| registry := <[database := tables]> (registry (resolved database w));
                  trace := trace w ++ [EvResolve database;
                                       EvSql database (data request)] |} in
     sql request database format w =
       (match r with
        | inr results =>
            inr (render_table request
                   (map (combine (rp_keys results)) (rp_rows results))
                   (rp_keys results) format)
        | inl e => inl e
        end, w'))
  /\ (content_type request <> Some "text/sql" ->
        dispatch (sql request database format) w =
          (Responded
             (render_message request "Only text/sql content is supported"
                format "error" 400 None), w))
  /\ (In (EvSql database (data request))
        (drop (List.length (trace w))
           (trace (snd (sql request database format w))))
      <-> content_type request = Some "text/sql").
Proof.
  assert (Hyes : content_type request = Some "text/sql" ->
     let '(r, tables) :=
       engine_execute (data request)
         (default ∅ (registry (resolved database w) !! database)) in
     let w' := {| registry := <[database := tables]> (registry (resolved database w));
                  trace := trace w ++ [EvResolve database;
                                       EvSql database (data request)] |} in
     sql request database format w =
       (match r with
        | inr results =>
            inr (render_table request
                   (map (combine (rp_keys results)) (rp_rows results))
                   (rp_keys results) format)
        | inl e => inl e
        end, w')).
  { intros Hct. unfold sql. rewrite bool_decide_eq_true_2 by done. simpl.
    unfold bind. rewrite db_factory_create_eq. unfold db_engine_execute.
    destruct (engine_execute _ _) as [r tables] eqn:E.
    replace (trace (resolved database w) ++ [EvSql database (data request)])
      with (trace w ++ [EvResolve database; EvSql database (data request)])
      by (unfold resolved; simpl; by rewrite <- app_assoc).
    destruct r as [e|results]; [done|].
    by rewrite result_proxy_iterator_map. }
  assert (Hno : content_type request <> Some "text/sql" ->
     sql request database format w =
       (inl (WebstoreException
               (render_message request "Only text/sql content is supported"
                  format "error" 400 None)), w)).
  { intros Hct. unfold sql. by rewrite bool_decide_eq_false_2. }
  split; [exact Hyes|]. split.
  - intros Hct. unfold dispatch. by rewrite (Hno Hct).
  - destruct (decide (content_type request = Some "text/sql")) as [Hct|Hct].
    + split; [done|]. intros _. specialize (Hyes Hct).
      destruct (engine_execute _ _) as [r tables]. rewrite Hyes. simpl.
      rewrite drop_app_length. simpl. auto.
    + split; [|done]. rewrite (Hno Hct). simpl.
      rewrite drop_all. by intros [].
Qed.

(** *** Writing rows *)

(** A row with at least one field. *)
Definition has_field (row : Row) : bool :=
  match row with
  | [] => false
  | _ :: _ => true
  end.

Lemma len_keys_truthy (row : Row) :
  Py.truthy_len (List.length (keys row)) = has_field row.
Proof. by destruct row. Qed.

Lemma resolved_open database w :
  is_Some (registry (resolved database w) !! database).
Proof.
  unfold resolved; simpl.
  destruct (registry w !! database) eqn:E; [by rewrite E|].
  by rewrite lookup_insert_eq.
Qed.

Lemma put_table_open h f w database :
  is_Some (registry w !! database) ->
  is_Some (registry (put_table h f w) !! database).
Proof. intros Hopen. unfold put_table; simpl. by apply lookup_alter_is_Some. Qed.

Lemma table_state_put_table h f w :
  is_Some (registry w !! h_database h) ->
  table_state h (put_table h f w) = f (table_state h w).
Proof.
  intros [db Hdb]. unfold table_state, put_table; simpl.
  rewrite lookup_alter_eq, Hdb. simpl. apply lookup_partial_alter_eq.
Qed.

Lemma create_rows_spec h (rows : list Row) w :
  is_Some (registry w !! h_database h) ->
  exists w',
    create_rows h rows w = (inr tt, w')
    /\ is_Some (registry w' !! h_database h)
    /\ table_state h w' =
         fold_left (fun o row => Some (add_row row (default new_table o)))
           (List.filter has_field rows) (table_state h w)
    /\ trace w' = trace w ++ map (EvAddRow h) (List.filter has_field rows).
Proof.
  revert w. induction rows as [|row rows IH]; intros w Hopen.
  - exists w. simpl. by rewrite app_nil_r.
  - simpl. unfold bind. rewrite len_keys_truthy.
    destruct (has_field row) eqn:Hrow; simpl.
    + set (w1 := put_table h _ _).
      destruct (IH w1) as (w' & Hrun & Hopen' & Hstate & Htrace).
      { by apply put_table_open. }
      exists w'. split; [done|]. split; [done|]. split.
      * rewrite Hstate. unfold w1. by rewrite table_state_put_table.
      * rewrite Htrace. unfold w1; simpl. by rewrite <- app_assoc.
    + by apply IH.
Qed.

Lemma create_named_fresh_run request database table format w rows :
  table_state (handle database table) w = None ->
  read_request request format = inr rows ->
  let '(out, w') := dispatch (create_named request database table format) w in
  out = Responded
          (render_message request ("Successfully created: " +:+ table)
             format "success" 201 (Some (url_for_read database table)))
  /\ table_state (handle database table) w' =
       commit <$> fold_left
                    (fun o row => Some (add_row row (default new_table o)))
                    (List.filter has_field rows) None
  /\ trace w' =
       trace w ++ [EvResolve database; EvTable (handle database table);
                   EvReadRequest]
         ++ map (EvAddRow (handle database table)) (List.filter has_field rows)
         ++ [EvCommit (handle database table)].
Proof.
  intros Hnone Hrows. unfold dispatch, create_named, bind, db_contains.
  rewrite db_factory_create_eq.
  change {| h_database := database; h_table := table |}
    with (handle database table).
  rewrite table_state_resolved, Hnone.
  unfold db_getitem, do_read_request, bind, emit, lift, ret. simpl.
  rewrite Hrows.
  set (w1 := {| registry := _; trace := _ |}).
  destruct (create_rows_spec (handle database table) rows w1)
    as (w' & Hrun & Hopen & Hstate & Htrace).
  { apply resolved_open. }
  assert (Hw1 : table_state (handle database table) w1 = None).
  { unfold w1.
    change (table_state (handle database table) (resolved database w) = None).
    by rewrite table_state_resolved. }
  rewrite Hw1 in Hstate. unfold handle in *.
  rewrite Hrun. unfold tbl_commit. split; [done|]. split.
  - rewrite table_state_put_table by done.
    by rewrite table_state_traced', Hstate.
  - simpl. rewrite Htrace. unfold w1; simpl.
    by rewrite <- !app_assoc.
Qed.

(** C6. A POST create on a table that does not exist yet, whose body
    decodes to [rows], adds exactly the rows that have at least one
    field, in order (rows without fields are passed over), commits the
    table, and answers 201 with the url of the resource: the route of
    its read with the names quoted, [/db/<database>/<table>] as it reads
    for names that need no quoting. *)
Theorem create_named_adds_rows_with_fields request database table format w rows :
  table_state (handle database table) w = None ->
  read_request request format = inr rows ->
  let '(out, w') := dispatch (create_named request database table format) w in
  out = Responded
          (render_message request ("Successfully created: " +:+ table)
             format "success" 201
             (Some ("/db/" +:+ url_quote database +:+ "/" +:+ url_quote table)))
  /\ (url_plain database = true -> url_plain table = true ->
      out = Responded
              (render_message request ("Successfully created: " +:+ table)
                 format "success" 201
                 (Some ("/db/" +:+ database +:+ "/" +:+ table))))
  /\ table_state (handle database table) w' =
       commit <$> fold_left
                    (fun o row => Some (add_row row (default new_table o)))
                    (List.filter has_field rows) None
  /\ trace w' =
       trace w ++ [EvResolve database; EvTable (handle database table);
                   EvReadRequest]
         ++ map (EvAddRow (handle database table)) (List.filter has_field rows)
         ++ [EvCommit (handle database table)].
Proof.
  intros Hnone Hrows.
  pose proof (create_named_fresh_run request database table format w rows
                Hnone Hrows) as Hrun.
  destruct (dispatch (create_named request database table format) w)
    as [out w'].
  destruct Hrun as (-> & Hstate & Htrace).
  split; [done|]. split; [|by split].
  intros Hd Ht. by rewrite (url_for_read_plain _ _ Hd Ht).
Qed.

(** What [update] does with the decoded rows, told row by row: a row
    with a field is offered to [update_row], and added when that gives
    false.  The table after the rows, and the calls made. *)
Definition upsert_row h (unique : list string) (row : Row) (t : T)
    : T * list (Event Clause) :=
  let '(matched, t') := update_row unique row t in
  if matched then (t', [EvUpdateRow h unique row true])
  else (add_row row t', [EvUpdateRow h unique row false; EvAddRow h row]).

Fixpoint upsert_rows h (unique : list string) (rows : list Row) (t : T)
    : T * list (Event Clause) :=
  match rows with
  | [] => (t, [])
  | row :: rest =>
      if has_field row then
        let '(t', evs) := upsert_row h unique row t in
        let '(t'', evs') := upsert_rows h unique rest t' in
        (t'', evs ++ evs')
      else upsert_rows h unique rest t
  end.

Lemma update_rows_spec h unique (rows : list Row) w t :
  is_Some (registry w !! h_database h) ->
  table_state h w = Some t ->
  exists w',
    update_rows h unique rows w = (inr tt, w')
    /\ is_Some (registry w' !! h_database h)
    /\ table_state h w' = Some (fst (upsert_rows h unique rows t))
    /\ trace w' = trace w ++ snd (upsert_rows h unique rows t).
Proof.
  revert w t. induction rows as [|row rows IH]; intros w t Hopen Hstate.
  - exists w. simpl. by rewrite app_nil_r.
  - simpl. unfold bind at 1. rewrite len_keys_truthy.
    destruct (has_field row) eqn:Hrow; simpl.
    + unfold bind at 1. unfold tbl_update_row at 1. rewrite Hstate. simpl.
      unfold upsert_row.
      destruct (update_row unique row t) as [matched t1] eqn:Hup.
      set (w1 := put_table h _ _).
      assert (Hopen1 : is_Some (registry w1 !! h_database h))
        by by apply put_table_open.
      assert (Hstate1 : table_state h w1 = Some t1).
      { unfold w1. rewrite table_state_put_table by done.
        rewrite table_state_traced' , Hstate. done. }
      destruct matched; simpl.
      * destruct (IH w1 t1 Hopen1 Hstate1) as (w' & Hrun & Hopen' & Hst & Htr).
        exists w'. split; [done|]. split; [done|].
        destruct (upsert_rows h unique rows t1) as [t2 evs2]. simpl in *.
        split; [done|]. rewrite Htr. unfold w1; simpl. by rewrite <- app_assoc.
      * set (w2 := put_table h _ _).
        assert (Hopen2 : is_Some (registry w2 !! h_database h)).
        { unfold w2. apply put_table_open. exact Hopen1. }
        assert (Hstate2 : table_state h w2 = Some (add_row row t1)).
        { unfold w2. rewrite table_state_put_table by exact Hopen1.
          change (Some (add_row row (default new_table (table_state h w1)))
                  = Some (add_row row t1)).
          by rewrite Hstate1. }
        destruct (IH w2 _ Hopen2 Hstate2) as (w' & Hrun & Hopen' & Hst & Htr).
        exists w'. split; [done|]. split; [done|].
        destruct (upsert_rows h unique rows (add_row row t1)) as [t2 evs2].
        simpl in *. split; [done|]. rewrite Htr. unfold w2; simpl.
        by rewrite <- !app_assoc.
    + by apply IH.
Qed.

(** With no unique columns, when [update_row] then gives false and
    leaves the table as it is (spec 4.2), every row with a field is
    appended. *)
Lemma upsert_rows_no_unique h (rows : list Row) (t : T) :
  (forall row t0, update_row [] row t0 = (false, t0)) ->
  upsert_rows h [] rows t =
    (fold_left (fun t0 row => add_row row t0) (List.filter has_field rows) t,
     flat_map (fun row => [EvUpdateRow h [] row false; EvAddRow h row])
       (List.filter has_field rows)).
Proof.
  intros Hnil. revert t. induction rows as [|row rows IH]; intros t; [done|].
  simpl. destruct (has_field row); [|apply IH].
  unfold upsert_row. rewrite Hnil, IH. done.
Qed.

Lemma update_existing_run request database table format w t rows :
  table_state (handle database table) w = Some t ->
  read_request request format = inr rows ->
  let h := handle database table in
  let unique := Args.getlist "unique" (args request) in
  let '(out, w') := dispatch (update request database table format) w in
  out = Responded
          (render_message request ("Table updated: " +:+ table)
             format "success" 201 (Some (url_for_read database table)))
  /\ table_state h w' = Some (commit (fst (upsert_rows h unique rows t)))
  /\ trace w' =
       trace w ++ [EvResolve database; EvTable h; EvReadRequest]
         ++ snd (upsert_rows h unique rows t) ++ [EvCommit h]
  /\ (unique = [] ->
      (forall row t0, update_row [] row t0 = (false, t0)) ->
      table_state h w' =
        Some (commit (fold_left (fun t0 row => add_row row t0)
                        (List.filter has_field rows) t))
      /\ trace w' =
           trace w ++ [EvResolve database; EvTable h; EvReadRequest]
             ++ flat_map (fun row => [EvUpdateRow h [] row false; EvAddRow h row])
                  (List.filter has_field rows)
             ++ [EvCommit h]).
Proof.
  intros Hsome Hrows h unique.
  unfold dispatch, update, bind.
  rewrite (get_table_existing _ _ _ _ _ _ Hsome).
  unfold do_read_request, bind, emit, lift. simpl. rewrite Hrows.
  fold h. fold unique.
  set (w1 := {| registry := _; trace := _ |}).
  destruct (update_rows_spec h unique rows w1 t)
    as (w' & Hrun & Hopen & Hstate & Htrace).
  { unfold w1; simpl. unfold table_state in Hsome. simpl in Hsome.
    destruct (registry w !! database); [done|discriminate]. }
  { exact Hsome. }
  rewrite Hrun. unfold tbl_commit.
  assert (Hst : table_state h
                  (put_table h (fmap commit)
                     {| registry := registry w'; trace := trace w' ++ [EvCommit h] |})
                = Some (commit (fst (upsert_rows h unique rows t)))).
  { rewrite table_state_put_table by done.
    by rewrite table_state_traced', Hstate. }
  assert (Htr : trace
                  (put_table h (fmap commit)
                     {| registry := registry w'; trace := trace w' ++ [EvCommit h] |})
                = trace w ++ [EvResolve database; EvTable h; EvReadRequest]
                    ++ snd (upsert_rows h unique rows t) ++ [EvCommit h]).
  { simpl. rewrite Htrace. unfold w1; simpl. by rewrite <- !app_assoc. }
  split; [done|]. split; [exact Hst|]. split; [exact Htr|].
  intros Hu Hnil. rewrite Hst, Htr, Hu.
  by rewrite (upsert_rows_no_unique h rows t Hnil).
Qed.

(** C7. A PUT update on an existing table whose body decodes to [rows]:
    each row with a field is first offered to [update_row] with the
    request's [unique] columns and is added by [add_row] exactly when
    [update_row] gave false ([upsert_rows]); then the table is committed
    and the answer is 201 with the url of the resource: the route of its
    read with the names quoted, [/db/<database>/<table>] as it reads for
    names that need no quoting.  With no [unique] argument, and
    [update_row] giving false on an empty column list, every row with a
    field is appended. *)
Theorem update_offers_then_adds request database table format w t rows :
  table_state (handle database table) w = Some t ->
  read_request request format = inr rows ->
  let h := handle database table in
  let unique := Args.getlist "unique" (args request) in
  let '(out, w') := dispatch (update request database table format) w in
  out = Responded
          (render_message request ("Table updated: " +:+ table)
             format "success" 201
             (Some ("/db/" +:+ url_quote database +:+ "/" +:+ url_quote table)))
  /\ (url_plain database = true -> url_plain table = true ->
      out = Responded
              (render_message request ("Table updated: " +:+ table)
                 format "success" 201
                 (Some ("/db/" +:+ database +:+ "/" +:+ table))))
  /\ table_state h w' = Some (commit (fst (upsert_rows h unique rows t)))
  /\ trace w' =
       trace w ++ [EvResolve database; EvTable h; EvReadRequest]
         ++ snd (upsert_rows h unique rows t) ++ [EvCommit h]
  /\ (unique = [] ->
      (forall row t0, update_row [] row t0 = (false, t0)) ->
      table_state h w' =
        Some (commit (fold_left (fun t0 row => add_row row t0)
                        (List.filter has_field rows) t))
      /\ trace w' =
           trace w ++ [EvResolve database; EvTable h; EvReadRequest]
             ++ flat_map (fun row => [EvUpdateRow h [] row false; EvAddRow h row])
                  (List.filter has_field rows)
             ++ [EvCommit h]).
Proof.
  intros Hsome Hrows h unique.
  pose proof (update_existing_run request database table format w t rows
                Hsome Hrows) as Hrun.
  cbv zeta in Hrun. fold h in Hrun. fold unique in Hrun.
  destruct (dispatch (update request database table format) w) as [out w'].
  destruct Hrun as (-> & Hstate & Htrace & Hnil).
  split; [done|]. split; [|exact (conj Hstate (conj Htrace Hnil))].
  intros Hd Ht. by rewrite (url_for_read_plain _ _ Hd Ht).
Qed.

(** *** Query arguments *)

Lemma getlist_remove_ne (k k' : string) (d : MultiDict) :
  k <> k' -> Args.getlist k (Args.remove k' d) = Args.getlist k d.
Proof.
  intros Hne. unfold Args.getlist, Args.remove, Args.is_key.
  induction d as [|[key v] d IH]; [done|]. simpl.
  destruct (String.eqb_spec key k') as [->|Hk']; simpl.
  - destruct (String.eqb_spec k' k) as [->|_]; [done|exact IH].
  - destruct (String.eqb key k); simpl; by rewrite IH.
Qed.

Lemma getlist_remove_eq (k : string) (d : MultiDict) :
  Args.getlist k (Args.remove k d) = [].
Proof.
  unfold Args.getlist, Args.remove.
  induction d as [|p d IH]; [done|]. simpl.
  destruct (Args.is_key k p) eqn:E; simpl; [exact IH|]. by rewrite E.
Qed.

Lemma remove_remove_eq (k : string) (d : MultiDict) :
  Args.remove k (Args.remove k d) = Args.remove k d.
Proof.
  unfold Args.remove.
  induction d as [|p d IH]; [done|]. simpl.
  destruct (Args.is_key k p) eqn:E; simpl; [exact IH|]. by rewrite E, IH.
Qed.

Lemma remove_remove_comm (k k' : string) (d : MultiDict) :
  Args.remove k (Args.remove k' d) = Args.remove k' (Args.remove k d).
Proof.
  unfold Args.remove.
  induction d as [|p d IH]; [done|]. simpl.
  destruct (Args.is_key k' p) eqn:E'; destruct (Args.is_key k p) eqn:E;
    simpl; rewrite ?E, ?E'; simpl; by rewrite IH.
Qed.

(** The query arguments left for the filter clause: all but the
    reserved keys. *)
Definition filter_params (d : MultiDict) : MultiDict :=
  Args.remove "_sort" (Args.remove "_offset" (Args.remove "_limit" d)).

(** *** Sort values *)

(** A [_sort] value as the spec reads it: [direction:column], the
    direction being asc or desc in any case. *)
Definition parse_sort (sort : string) : option OrderBy :=
  match Py.partition ":" sort with
  | Some (order, column) =>
      if String.eqb (Py.lower order) "asc" then Some (Asc column)
      else if String.eqb (Py.lower order) "desc" then Some (Desc column)
      else None
  | None => None
  end.

Definition well_formed (sort : string) : bool :=
  match parse_sort sort with
  | Some _ => true
  | None => false
  end.

Lemma contains_partition (c : ascii) (s : string) :
  Py.contains (String c EmptyString) s =
    match Py.partition c s with
    | Some _ => true
    | None => false
    end.
Proof.
  induction s as [|a s IH]; [done|].
  cbn [Py.contains Py.partition String.prefix]. rewrite IH.
  destruct (Ascii.eqb_spec a c) as [->|Hne].
  - destruct (ascii_dec c c); [by destruct s|done].
  - destruct (ascii_dec c a) as [->|_]; [done|].
    by destruct (Py.partition c s) as [[??]|].
Qed.

Lemma sort_orders_lookup (k : string) :
  sort_orders !! k =
    if String.eqb k "asc" then Some (PyFunction Asc)
    else if String.eqb k "desc" then Some (PyFunction Desc)
    else None.
Proof.
  unfold sort_orders.
  destruct (String.eqb_spec k "asc") as [->|Hasc]; [by rewrite lookup_insert_eq|].
  rewrite lookup_insert_ne by done.
  destruct (String.eqb_spec k "desc") as [->|Hdesc].
  - by rewrite lookup_singleton_eq.
  - by rewrite lookup_singleton_ne.
Qed.

Lemma read_sorts_well_formed request format sort term rest sorts :
  parse_sort sort = Some term ->
  read_sorts request format (sort :: rest) sorts =
    read_sorts request format rest (sorts ++ [term]).
Proof.
  unfold parse_sort. intros Hparse. cbn [read_sorts].
  rewrite contains_partition. unfold Py.split1.
  destruct (Py.partition ":" sort) as [[order column]|]; [|done].
  cbn [negb]. rewrite sort_orders_lookup.
  destruct (String.eqb (Py.lower order) "asc").
  { by injection Hparse as <-. }
  destruct (String.eqb (Py.lower order) "desc"); [|done].
  by injection Hparse as <-.
Qed.

Lemma read_sorts_unknown_direction request format sort order column rest sorts :
  Py.partition ":" sort = Some (order, column) ->
  Py.lower order <> "asc" ->
  Py.lower order <> "desc" ->
  read_sorts request format (sort :: rest) sorts =
    inl (TypeError "'str' object is not callable").
Proof.
  intros Hpart Hasc Hdesc. cbn [read_sorts].
  rewrite contains_partition. unfold Py.split1. rewrite Hpart.
  cbn [negb]. rewrite sort_orders_lookup.
  destruct (String.eqb_spec (Py.lower order) "asc"); [done|].
  by destruct (String.eqb_spec (Py.lower order) "desc").
Qed.

Lemma read_sorts_no_separator request format sort rest sorts :
  Py.contains ":" sort = false ->
  read_sorts request format (sort :: rest) sorts =
    inr (Return (render_message request
                   "Invalid sorting format, use: order:column"
                   format "error" 400 None)).
Proof. intros Hsep. cbn [read_sorts]. by rewrite Hsep. Qed.

Lemma read_sorts_prefix request format good rest sorts :
  forallb well_formed good = true ->
  read_sorts request format (good ++ rest) sorts =
    read_sorts request format rest (sorts ++ omap parse_sort good).
Proof.
  revert sorts. induction good as [|sort good IH]; intros sorts Hgood.
  - simpl. by rewrite app_nil_r.
  - simpl in Hgood. apply andb_prop in Hgood as [Hsort Hgood].
    unfold well_formed in Hsort.
    destruct (parse_sort sort) as [term|] eqn:Hparse; [|done].
    rewrite <- app_comm_cons.
    rewrite (read_sorts_well_formed _ _ _ _ _ _ Hparse), IH by done.
    cbn [omap list_omap]. rewrite Hparse. by rewrite <- app_assoc.
Qed.

(** The [_sort] values the loop of [read] goes through. *)
Lemma read_sort_values (d : MultiDict) :
  Args.getlist "_sort" (Args.remove "_offset" (Args.remove "_limit" d)) =
    Args.getlist "_sort" d.
Proof. by rewrite !getlist_remove_ne. Qed.

(** *** Reading an existing table *)

(** What [read] comes to on a table that exists, call by call. *)
Lemma read_existing request database table format w t :
  table_state (handle database table) w = Some t ->
  read request database table format w =
    let h := handle database table in
    let params := filter_params (args request) in
    match read_sorts request format (Args.getlist "_sort" (args request)) [] with
    | inl e => (inl e, traced w [EvResolve database; EvTable h])
    | inr (Return r) => (inr r, traced w [EvResolve database; EvTable h])
    | inr (Next sorts) =>
        let w1 := traced w [EvResolve database; EvTable h;
                            EvArgsToClause h params] in
        match args_to_clause t params with
        | inl (KeyError ke) =>
            (inr (render_message request ("Invalid filter: " +:+ ke)
                    format "error" 400 None), w1)
        | inl e => (inl e, w1)
        | inr clause =>
            match select clause (Args.get "_limit" (args request))
                    (Args.get "_offset" (args request)) sorts with
            | inl (ValueError ve) =>
                (inr (render_message request ("Invalid value: " +:+ ve)
                        format "error" 400 None), w1)
            | inl e => (inl e, w1)
            | inr statement =>
                let w2 := traced w [EvResolve database; EvTable h;
                                    EvArgsToClause h params;
                                    EvExecute h statement] in
                match execute t statement with
                | inl (OperationalError message) =>
                    (inr (render_message request ("Invalid query: " +:+ message)
                            format "error" 400 None), w2)
                | inl e => (inl e, w2)
                | inr results =>
                    (inr (render_table request (_result_proxy_iterator results)
                            (rp_keys results) format), w2)
                end
            end
        end
    end.
Proof.
  intros Hsome. unfold read, bind at 1.
  rewrite (get_table_existing _ _ _ _ _ _ Hsome).
  cbv zeta. unfold Args.pop, Args.poplist.
  rewrite read_sort_values.
  rewrite (getlist_remove_ne "_offset" "_limit") by done.
  fold (Args.get "_limit" (args request)).
  fold (Args.get "_offset" (args request)).
  fold (filter_params (args request)).
  destruct (read_sorts _ _ _ _) as [e|[sorts|r]]; [done| |done].
  unfold bind, attempt, tbl_args_to_clause.
  rewrite table_state_traced, Hsome. change (default new_table (Some t)) with t.
  change {| registry := registry (traced w ?evs); trace := ?tr |}
    with {| registry := registry w; trace := tr |}.
  destruct (args_to_clause t _) as [e|clause].
  { unfold traced; cbn [trace registry]. rewrite <- app_assoc.
    by destruct e. }
  destruct (select clause _ _ sorts) as [e|statement].
  { unfold traced; cbn [trace registry]. rewrite <- app_assoc.
    by destruct e. }
  unfold tbl_execute. rewrite table_state_traced', Hsome. change (default new_table (Some t)) with t.
  unfold traced; cbn [trace registry]. rewrite <- !app_assoc.
  destruct (execute t statement) as [e|results]; [by destruct e|done].
Qed.

(** C1 (what the code does). On an existing table, a [_sort] value that
    has the separator but a direction other than asc or desc, met after
    well-formed values only, makes [read] call the string ['asc']: the
    handler ends in a [TypeError], a server fault, before the filter
    clause is built and before any query; the direction does not fall
    back to ascending. *)
Theorem read_unknown_direction_faults
    request database table format w t good sort order column rest :
  table_state (handle database table) w = Some t ->
  Args.getlist "_sort" (args request) = good ++ sort :: rest ->
  forallb well_formed good = true ->
  Py.partition ":" sort = Some (order, column) ->
  String.eqb (Py.lower order) "asc" = false ->
  String.eqb (Py.lower order) "desc" = false ->
  dispatch (read request database table format) w =
    (ServerFault (TypeError "'str' object is not callable"),
     traced w [EvResolve database; EvTable (handle database table)]).
Proof.
  intros Hsome Hsorts Hgood Hpart Hasc Hdesc.
  apply String.eqb_neq in Hasc, Hdesc.
  unfold dispatch. rewrite (read_existing _ _ _ _ _ _ Hsome). cbv zeta.
  rewrite Hsorts, (read_sorts_prefix _ _ _ _ _ Hgood).
  by rewrite (read_sorts_unknown_direction _ _ _ _ _ _ _ Hpart Hasc Hdesc).
Qed.

(** C8 (amended). On an existing table, a [_sort] value without the
    [:] separator, met after well-formed values only, is answered by the
    400 envelope "Invalid sorting format", and the only calls made are
    the resolution of the database and of the table: the filter clause
    is not built and no query is executed. *)
Theorem read_sort_without_separator_is_400
    request database table format w t good sort rest :
  table_state (handle database table) w = Some t ->
  Args.getlist "_sort" (args request) = good ++ sort :: rest ->
  forallb well_formed good = true ->
  Py.contains ":" sort = false ->
  dispatch (read request database table format) w =
    (Responded (render_message request
                  "Invalid sorting format, use: order:column"
                  format "error" 400 None),
     traced w [EvResolve database; EvTable (handle database table)]).
Proof.
  intros Hsome Hsorts Hgood Hsep.
  unfold dispatch. rewrite (read_existing _ _ _ _ _ _ Hsome). cbv zeta.
  rewrite Hsorts, (read_sorts_prefix _ _ _ _ _ Hgood).
  by rewrite (read_sorts_no_separator _ _ _ _ _ Hsep).
Qed.

Lemma read_sorts_all_well_formed request format values :
  forallb well_formed values = true ->
  read_sorts request format values [] = inr (Next (omap parse_sort values)).
Proof.
  intros Hgood.
  rewrite <- (app_nil_r values) at 1.
  by rewrite (read_sorts_prefix _ _ _ _ _ Hgood).
Qed.

Lemma contains_app_r (needle prefix hay : string) :
  Py.contains needle hay = true ->
  Py.contains needle (prefix +:+ hay) = true.
Proof.
  intros Hin. induction prefix as [|a prefix IH]; [done|].
  change (String a prefix +:+ hay) with (String a (prefix +:+ hay)).
  cbn [Py.contains]. rewrite IH. apply orb_true_r.
Qed.

(** C2 (amended). On an existing table, with well-formed [_sort] values
    and a filter clause that builds: when the first value of [_limit] is
    not empty and [int] raises a [ValueError] on it, or [_limit] is
    absent, empty or an integer and the same holds of [_offset], the
    answer is the 400 envelope "Invalid value: " followed by the text of
    the [ValueError]; no query is executed.  When that text quotes the
    literal, so does the message. *)
Theorem read_invalid_pagination_is_400
    request database table format w t clause literal text :
  table_state (handle database table) w = Some t ->
  forallb well_formed (Args.getlist "_sort" (args request)) = true ->
  args_to_clause t (filter_params (args request)) = inr clause ->
  Py.truthy literal = true ->
  py_int literal = inl (ValueError text) ->
  (Args.get "_limit" (args request) = Some literal
   \/ (Args.get "_offset" (args request) = Some literal
       /\ exists l, int_or_none (Args.get "_limit" (args request)) = inr l)) ->
  dispatch (read request database table format) w =
    (Responded (render_message request ("Invalid value: " +:+ text)
                  format "error" 400 None),
     traced w [EvResolve database; EvTable (handle database table);
               EvArgsToClause (handle database table)
                 (filter_params (args request))])
  /\ (Py.contains literal text = true ->
      Py.contains literal ("Invalid value: " +:+ text) = true).
Proof.
  intros Hsome Hgood Hclause Htruthy Hint Hwhich.
  split; [|apply contains_app_r].
  unfold dispatch. rewrite (read_existing _ _ _ _ _ _ Hsome). cbv zeta.
  rewrite (read_sorts_all_well_formed _ _ _ Hgood), Hclause.
  assert (Hbad : int_or_none (Some literal) = inl (ValueError text)).
  { unfold int_or_none. by rewrite Htruthy, Hint. }
  unfold select.
  destruct Hwhich as [-> | [-> [l ->]]]; by rewrite Hbad.
Qed.

(** The request without the query argument [k]. *)
Definition without (k : string) request : Request :=
  {| args := Args.remove k (args request);
     content_type := content_type request;
     data := data request;
     accept := accept request |}.

Lemma read_sorts_without k request format values sorts :
  read_sorts (without k request) format values sorts =
    read_sorts request format values sorts.
Proof.
  revert sorts. induction values as [|sort values IH]; intros sorts; [done|].
  cbn [read_sorts]. destruct (negb _); [done|].
  destruct (Py.split1 _ _) as [|order [|column [|]]]; try done.
  destruct (call _ _); [done|apply IH].
Qed.

Lemma int_or_none_empty : int_or_none (Some "") = int_or_none None.
Proof. reflexivity. Qed.

Lemma get_table_missing_read request database table format w :
  table_state (handle database table) w = None ->
  read request database table format w =
    (inl (WebstoreException
            (render_message request ("No such table: " +:+ table)
               format "error" 404 None)),
     resolved database w).
Proof.
  intros Hnone. unfold read, bind.
  by rewrite (get_table_missing _ _ _ _ _ Hnone).
Qed.

(** A read with an empty first value of the pagination key [k] is the
    read of the request without [k]. *)
Lemma read_without k request database table format w :
  k = "_limit" \/ k = "_offset" ->
  Args.get k (args request) = Some "" ->
  read request database table format w =
    read (without k request) database table format w.
Proof.
  intros Hk Hempty.
  destruct (table_state (handle database table) w) as [t|] eqn:Hstate.
  - rewrite !(read_existing _ _ _ _ _ _ Hstate). cbv zeta.
    rewrite read_sorts_without. cbn [without args].
    assert (Hsorts : Args.getlist "_sort" (Args.remove k (args request))
                     = Args.getlist "_sort" (args request)).
    { destruct Hk as [-> | ->]; by rewrite getlist_remove_ne. }
    assert (Hparams : filter_params (Args.remove k (args request))
                      = filter_params (args request)).
    { unfold filter_params. destruct Hk as [-> | ->].
      - by rewrite remove_remove_eq.
      - rewrite (remove_remove_comm "_limit" "_offset").
        by rewrite remove_remove_eq. }
    assert (Hselect : forall clause sorts,
              select clause (Args.get "_limit" (Args.remove k (args request)))
                (Args.get "_offset" (Args.remove k (args request))) sorts
              = select clause (Args.get "_limit" (args request))
                  (Args.get "_offset" (args request)) sorts).
    { intros clause sorts. unfold Args.get in *.
      destruct Hk as [-> | ->].
      - rewrite getlist_remove_eq, getlist_remove_ne by done.
        rewrite Hempty. unfold select. by rewrite int_or_none_empty.
      - rewrite getlist_remove_eq, getlist_remove_ne by done.
        rewrite Hempty. unfold select. by rewrite int_or_none_empty. }
    rewrite Hsorts, Hparams.
    destruct (read_sorts _ _ _ _) as [e|[sorts|r]]; [done| |done].
    destruct (args_to_clause t _) as [e|clause]; [done|].
    by rewrite Hselect.
  - by rewrite !(get_table_missing_read _ _ _ _ _ Hstate).
Qed.

(** A read whose arguments all parse runs its selection. *)
Lemma read_runs request database table format w t clause l o :
  table_state (handle database table) w = Some t ->
  forallb well_formed (Args.getlist "_sort" (args request)) = true ->
  args_to_clause t (filter_params (args request)) = inr clause ->
  int_or_none (Args.get "_limit" (args request)) = inr l ->
  int_or_none (Args.get "_offset" (args request)) = inr o ->
  let h := handle database table in
  let statement :=
    {| whereclause := clause; limit := l; offset := o;
       order_by := omap parse_sort (Args.getlist "_sort" (args request)) |} in
  read request database table format w =
    (match execute t statement with
     | inl (OperationalError message) =>
         inr (render_message request ("Invalid query: " +:+ message)
                format "error" 400 None)
     | inl e => inl e
     | inr results =>
         inr (render_table request (_result_proxy_iterator results)
                (rp_keys results) format)
     end,
     traced w [EvResolve database; EvTable h;
               EvArgsToClause h (filter_params (args request));
               EvExecute h statement]).
Proof.
  intros Hsome Hgood Hclause Hlimit Hoffset h statement.
  rewrite (read_existing _ _ _ _ _ _ Hsome). cbv zeta.
  rewrite (read_sorts_all_well_formed _ _ _ Hgood), Hclause.
  unfold select. rewrite Hlimit, Hoffset. fold statement. fold h.
  destruct (execute t statement) as [e|results]; [by destruct e|done].
Qed.

(** C10. A read in which the first value of [_limit] (or of [_offset])
    is the empty string is the read of the same request without that
    argument: the value is not handed to [int], nothing is rejected on
    its account, and when the table exists and the other arguments parse,
    the selection is executed with no limit (no offset) and its result
    set rendered. *)
Theorem read_empty_pagination_is_absent request database table format w k :
  k = "_limit" \/ k = "_offset" ->
  Args.get k (args request) = Some "" ->
  read request database table format w =
    read (without k request) database table format w
  /\ int_or_none (Args.get k (args request)) = inr None
  /\ forall t clause l o results,
       table_state (handle database table) w = Some t ->
       forallb well_formed (Args.getlist "_sort" (args request)) = true ->
       args_to_clause t (filter_params (args request)) = inr clause ->
       int_or_none (Args.get "_limit" (args request)) = inr l ->
       int_or_none (Args.get "_offset" (args request)) = inr o ->
       let h := handle database table in
       let statement :=
         {| whereclause := clause; limit := l; offset := o;
            order_by := omap parse_sort (Args.getlist "_sort" (args request)) |} in
       execute t statement = inr results ->
       dispatch (read request database table format) w =
         (Responded (render_table request (_result_proxy_iterator results)
                       (rp_keys results) format),
          traced w [EvResolve database; EvTable h;
                    EvArgsToClause h (filter_params (args request));
                    EvExecute h statement])
       /\ (k = "_limit" -> limit statement = None)
       /\ (k = "_offset" -> offset statement = None).
Proof.
  intros Hk Hempty. split; [by apply read_without|].
  split; [by rewrite Hempty|].
  intros t clause l o results Hsome Hgood Hclause Hlimit Hoffset h statement Hexec.
  split.
  - unfold dispatch.
    rewrite (read_runs _ _ _ _ _ _ _ _ _ Hsome Hgood Hclause Hlimit Hoffset).
    fold h. fold statement. by rewrite Hexec.
  - split; intros ->; simpl.
    + rewrite Hempty in Hlimit. by injection Hlimit as <-.
    + rewrite Hempty in Hoffset. by injection Hoffset as <-.
Qed.

End Properties.

(** ** A reference instance of the collaborators

    A small engine and codec on which the handlers run on concrete
    requests. *)

Module Reference.

(** The double quote and the line feed, as strings. *)
Definition dquote : string := String (ascii_of_nat 34) EmptyString.
Definition nl : string := String (ascii_of_nat 10) EmptyString.

(** Modelled from the spec: the table handle of webstore.core is
    missing.  Spec 3 and 4.2: a table is its rows, each carrying the
    system identifier [__id__]; [commit] makes the operations since the
    last commit durable. *)
Record Sheet := { live : list Row; saved : list Row }.

Definition field (column : string) (row : Row) : option Scalar :=
  option_map snd (List.find (fun p => String.eqb (fst p) column) row).

Definition scalar_eqb (a b : Scalar) : bool :=
  match a, b with
  | SNull, SNull => true
  | SInt x, SInt y => Z.eqb x y
  | SStr x, SStr y => String.eqb x y
  | _, _ => false
  end.

Definition new_table : Sheet := {| live := []; saved := [] |}.

(** Modelled from the spec: [add_row] (4.2) inserts one row; the
    identifier column is assigned by the system and comes first. *)
Definition add_row (row : Row) (t : Sheet) : Sheet :=
  {| live := live t ++
             [("__id__", SInt (Z.of_nat (S (List.length (live t)))))
              :: List.filter (fun p => negb (String.eqb (fst p) "__id__")) row];
     saved := saved t |}.

Definition matches (unique : list string) (row existing : Row) : bool :=
  forallb (fun column =>
             match field column row, field column existing with
             | Some a, Some b => scalar_eqb a b
             | _, _ => false
             end) unique.

Definition set_field (existing : Row) (p : string * Scalar) : Row :=
  if existsb (fun q => String.eqb (fst q) (fst p)) existing
  then map (fun q => if String.eqb (fst q) (fst p) then p else q) existing
  else existing ++ [p].

(** Modelled from the spec: [update_row] (4.2).  With unique columns,
    the rows equal to [row] on exactly those columns get the other
    fields of [row], and the answer is true when there is such a row;
    otherwise, and always with no unique column, the answer is false. *)
Definition update_row (unique : list string) (row : Row) (t : Sheet)
    : bool * Sheet :=
  match unique with
  | [] => (false, t)
  | _ :: _ =>
      if existsb (matches unique row) (live t) then
        (true,
         {| live := map (fun existing =>
                           if matches unique row existing
                           then fold_left set_field row existing
                           else existing) (live t);
            saved := saved t |})
      else (false, t)
  end.

Definition commit (t : Sheet) : Sheet :=
  {| live := live t; saved := live t |}.

(** The columns of a table, in the order they were first seen. *)
Definition columns (t : Sheet) : list string :=
  fold_left (fun seen column =>
               if existsb (String.eqb column) seen then seen
               else seen ++ [column])
    (flat_map keys (live t)) [].

(** Modelled from the spec: the clause builder (4.3).  Each argument is
    an equality on its column; a column the table does not have is a
    [KeyError]. *)
Definition Clause := list (string * string).

Definition args_to_clause (t : Sheet) (params : MultiDict) : Exn + Clause :=
  match List.find (fun p => negb (existsb (String.eqb (fst p)) (columns t))) params with
  | Some p => inl (KeyError ("'" +:+ fst p +:+ "'"))
  | None => inr params
  end.

(** Decimal digits. *)
Definition digit (a : ascii) : option Z :=
  let n := nat_of_ascii a in
  if (48 <=? n)%nat && (n <=? 57)%nat then Some (Z.of_nat (n - 48)) else None.

Fixpoint digits (s : string) (acc : Z) : option Z :=
  match s with
  | EmptyString => Some acc
  | String a rest =>
      match digit a with
      | Some d => digits rest (10 * acc + d)
      | None => None
      end
  end.

Definition natural (s : string) : option Z :=
  match s with
  | EmptyString => None
  | String _ _ => digits s 0
  end.

(** White space: space, tab, line feed, vertical tab, form feed,
    carriage return. *)
Definition is_space (a : ascii) : bool :=
  let n := nat_of_ascii a in
  Nat.eqb n 32 || ((9 <=? n)%nat && (n <=? 13)%nat).

Fixpoint lstrip (s : string) : string :=
  match s with
  | EmptyString => EmptyString
  | String a rest => if is_space a then lstrip rest else s
  end.

Fixpoint rstrip (s : string) : string :=
  match s with
  | EmptyString => EmptyString
  | String a rest =>
      match rstrip rest with
      | EmptyString => if is_space a then EmptyString else String a EmptyString
      | r => String a r
      end
  end.

Definition lower_hex (n : nat) : ascii :=
  if (n <? 10)%nat then ascii_of_nat (48 + n) else ascii_of_nat (87 + n).

(** One character of [repr] of a Python 2 [str] delimited by [quote]. *)
Definition repr_char (quote : ascii) (a : ascii) : string :=
  let n := nat_of_ascii a in
  if Ascii.eqb a quote || Nat.eqb n 92 then String (ascii_of_nat 92) (String a EmptyString)
  else if Nat.eqb n 9 then String (ascii_of_nat 92) "t"
  else if Nat.eqb n 10 then String (ascii_of_nat 92) "n"
  else if Nat.eqb n 13 then String (ascii_of_nat 92) "r"
  else if (n <? 32)%nat || (127 <=? n)%nat then
    String (ascii_of_nat 92)
      (String "x" (String (lower_hex (n / 16))
                     (String (lower_hex (n mod 16)) EmptyString)))
  else String a EmptyString.

Fixpoint repr_chars (quote : ascii) (s : string) : string :=
  match s with
  | EmptyString => EmptyString
  | String a rest => repr_char quote a +:+ repr_chars quote rest
  end.

(** [repr] of a Python 2 [str]: in single quotes, or in double quotes
    when the text holds a single quote and no double quote. *)
Definition py_repr (s : string) : string :=
  let quote :=
    if Py.contains "'" s && negb (Py.contains dquote s)
    then ascii_of_nat 34 else ascii_of_nat 39 in
  String quote (repr_chars quote s +:+ String quote EmptyString).

(** Python 2's [int] on a string, in base 10: white space around the
    literal is dropped, then come an optional sign and decimal digits.
    On any other literal the [ValueError] names the [repr] of the
    literal, of its first 200 characters when it is longer. *)
Definition py_int (s : string) : Exn + Z :=
  let value :=
    match rstrip (lstrip s) with
    | String "-" rest => option_map Z.opp (natural rest)
    | String "+" rest => natural rest
    | literal => natural literal
    end in
  match value with
  | Some z => inr z
  | None =>
      inl (ValueError ("invalid literal for int() with base 10: "
                       +:+ py_repr (String.substring 0 200 s)))
  end.

Definition satisfies (clause : Clause) (row : Row) : bool :=
  forallb (fun p =>
             match field (fst p) row with
             | Some (SStr s) => String.eqb s (snd p)
             | Some (SInt z) =>
                 match py_int (snd p) with
                 | inr y => Z.eqb z y
                 | inl _ => false
                 end
             | _ => false
             end) clause.

(** The order of scalars: nulls first, then integers, then text. *)
Definition scalar_leb (a b : Scalar) : bool :=
  match a, b with
  | SNull, _ => true
  | SInt _, SNull => false
  | SInt x, SInt y => Z.leb x y
  | SInt _, SStr _ => true
  | SStr x, SStr y => String.leb x y
  | SStr _, _ => false
  end.

Definition term_leb (term : OrderBy) (r1 r2 : Row) : bool :=
  match term with
  | Asc column =>
      scalar_leb (default SNull (field column r1)) (default SNull (field column r2))
  | Desc column =>
      scalar_leb (default SNull (field column r2)) (default SNull (field column r1))
  end.

Fixpoint insert_by (leb : Row -> Row -> bool) (row : Row) (sorted : list Row)
    : list Row :=
  match sorted with
  | [] => [row]
  | r :: rest => if leb row r then row :: sorted else r :: insert_by leb row rest
  end.

(** A stable sort on one term; the terms are applied last to first. *)
Definition sort_by (term : OrderBy) (rows : list Row) : list Row :=
  fold_right (insert_by (term_leb term)) [] rows.

Definition window (limit offset : option Z) (rows : list Row) : list Row :=
  let rows := drop (Z.to_nat (default 0%Z offset)) rows in
  match limit with
  | Some n => if (n <? 0)%Z then rows else take (Z.to_nat n) rows
  | None => rows
  end.

Definition result_of (t : Sheet) (rows : list Row) : ResultProxy :=
  {| rp_keys := columns t;
     rp_rows := map (fun row =>
                       map (fun column => default SNull (field column row))
                         (columns t)) rows |}.

(** The engine on a selection: filter, order, window. *)
Definition execute (t : Sheet) (statement : Statement Clause) : Exn + ResultProxy :=
  inr (result_of t
         (window (limit statement) (offset statement)
            (fold_right sort_by
               (List.filter (satisfies (whereclause statement)) (live t))
               (order_by statement)))).

Fixpoint strip_prefix (p s : string) : option string :=
  match p, s with
  | EmptyString, _ => Some s
  | String a p', String b s' =>
      if Ascii.eqb a b then strip_prefix p' s' else None
  | String _ _, EmptyString => None
  end.

(** The engine on a raw statement: only [SELECT * FROM "table"] is
    understood. *)
Definition engine_execute (text : string) (tables : gmap string Sheet)
    : (Exn + ResultProxy) * gmap string Sheet :=
  match strip_prefix ("SELECT * FROM " +:+ dquote) text with
  | Some rest =>
      match Py.partition (ascii_of_nat 34) rest with
      | Some (name, EmptyString) =>
          match tables !! name with
          | Some t => (inr (result_of t (live t)), tables)
          | None => (inl (OperationalError ("no such table: " +:+ name)), tables)
          end
      | _ => (inl (OperationalError "syntax error"), tables)
      end
  | None => (inl (OperationalError "syntax error"), tables)
  end.

(** Splitting on a character. *)
Fixpoint split_on (sep : ascii) (s : string) (current : string) : list string :=
  match s with
  | EmptyString => [current]
  | String a rest =>
      if Ascii.eqb a sep then current :: split_on sep rest EmptyString
      else split_on sep rest (current +:+ String a EmptyString)
  end.

(** The delimited-text format: a header line, then one row of text
    cells per line; blank lines are passed over. *)
Definition decode_csv (text : string) : list Row :=
  match split_on (ascii_of_nat 10) text EmptyString with
  | header :: lines =>
      map (fun line =>
             combine (split_on "," header EmptyString)
               (map SStr (split_on "," line EmptyString)))
        (List.filter Py.truthy lines)
  | [] => []
  end.

(** The structured-record format: a JSON list of objects, or one object,
    whose values are strings, integers, [true], [false] or [null]. *)
Inductive Token :=
| TOpenList
| TCloseList
| TOpenDict
| TCloseDict
| TColon
| TComma
| TText (s : string)
| TScalar (x : Scalar).

Inductive Lexing :=
| Between
| InText (text : string)
| Escaped (text : string)
| InWord (word : string).

Definition punctuation (a : ascii) : option Token :=
  match nat_of_ascii a with
  | 91 => Some TOpenList
  | 93 => Some TCloseList
  | 123 => Some TOpenDict
  | 125 => Some TCloseDict
  | 58 => Some TColon
  | 44 => Some TComma
  | _ => None
  end.

Definition word_token (word : string) : option Token :=
  if String.eqb word "null" then Some (TScalar SNull)
  else if String.eqb word "true" then Some (TScalar (SInt 1))
  else if String.eqb word "false" then Some (TScalar (SInt 0))
  else
    match word with
    | String "-" rest => option_map (fun z => TScalar (SInt (- z))) (natural rest)
    | _ => option_map (fun z => TScalar (SInt z)) (natural word)
    end.

(** The character of a one-letter escape in a JSON string. *)
Definition unescape (a : ascii) : option ascii :=
  match nat_of_ascii a with
  | 34 => Some (ascii_of_nat 34)
  | 92 => Some (ascii_of_nat 92)
  | 47 => Some (ascii_of_nat 47)
  | 110 => Some (ascii_of_nat 10)
  | 116 => Some (ascii_of_nat 9)
  | 114 => Some (ascii_of_nat 13)
  | 98 => Some (ascii_of_nat 8)
  | 102 => Some (ascii_of_nat 12)
  | _ => None
  end.

(** What a character met between tokens starts. *)
Definition between (a : ascii) : list Token * Lexing :=
  if is_space a then ([], Between)
  else if Nat.eqb (nat_of_ascii a) 34 then ([], InText EmptyString)
  else match punctuation a with
       | Some t => ([t], Between)
       | None => ([], InWord (String a EmptyString))
       end.

Definition ends_word (a : ascii) : bool :=
  is_space a || Nat.eqb (nat_of_ascii a) 34
  || match punctuation a with Some _ => true | None => false end.

Fixpoint lex (s : string) (state : Lexing) : option (list Token) :=
  match s with
  | EmptyString =>
      match state with
      | Between => Some []
      | InWord word => option_map (fun t => [t]) (word_token word)
      | InText _ | Escaped _ => None
      end
  | String a rest =>
      match state with
      | Between =>
          let '(ts, next) := between a in
          option_map (app ts) (lex rest next)
      | InText text =>
          if Nat.eqb (nat_of_ascii a) 34
          then option_map (cons (TText text)) (lex rest Between)
          else if Nat.eqb (nat_of_ascii a) 92 then lex rest (Escaped text)
          else lex rest (InText (text +:+ String a EmptyString))
      | Escaped text =>
          match unescape a with
          | Some c => lex rest (InText (text +:+ String c EmptyString))
          | None => None
          end
      | InWord word =>
          if ends_word a then
            match word_token word with
            | Some t =>
                let '(ts, next) := between a in
                option_map (fun r => t :: ts ++ r) (lex rest next)
            | None => None
            end
          else lex rest (InWord (word +:+ String a EmptyString))
      end
  end.

Inductive Parsing :=
| Start
| ListOpen
| ListNext
| ListAfter
| DictOpen (in_list : bool) (row : Row)
| DictNext (in_list : bool) (row : Row)
| DictKey (in_list : bool) (row : Row) (key : string)
| DictValue (in_list : bool) (row : Row) (key : string)
| DictAfter (in_list : bool) (row : Row)
| Finished.

Definition after_dict (in_list : bool) : Parsing :=
  if in_list then ListAfter else Finished.

(** One token of the body; a single object is a list of one row. *)
Definition parse_step (state : Parsing) (t : Token) (rows : list Row)
    : option (Parsing * list Row) :=
  match state, t with
  | Start, TOpenList => Some (ListOpen, rows)
  | Start, TOpenDict => Some (DictOpen false [], rows)
  | ListOpen, TCloseList => Some (Finished, rows)
  | ListOpen, TOpenDict => Some (DictOpen true [], rows)
  | ListNext, TOpenDict => Some (DictOpen true [], rows)
  | ListAfter, TComma => Some (ListNext, rows)
  | ListAfter, TCloseList => Some (Finished, rows)
  | DictOpen b row, TCloseDict => Some (after_dict b, rows ++ [row])
  | DictOpen b row, TText key => Some (DictKey b row key, rows)
  | DictNext b row, TText key => Some (DictKey b row key, rows)
  | DictKey b row key, TColon => Some (DictValue b row key, rows)
  | DictValue b row key, TText text =>
      Some (DictAfter b (set_field row (key, SStr text)), rows)
  | DictValue b row key, TScalar x =>
      Some (DictAfter b (set_field row (key, x)), rows)
  | DictAfter b row, TComma => Some (DictNext b row, rows)
  | DictAfter b row, TCloseDict => Some (after_dict b, rows ++ [row])
  | _, _ => None
  end.

Fixpoint parse (ts : list Token) (state : Parsing) (rows : list Row)
    : option (list Row) :=
  match ts with
  | [] =>
      match state with
      | Finished => Some rows
      | _ => None
      end
  | t :: rest =>
      match parse_step state t rows with
      | Some (next, rows') => parse rest next rows'
      | None => None
      end
  end.

Definition decode_json (text : string) : option (list Row) :=
  match lex text Between with
  | Some ts => parse ts Start []
  | None => None
  end.

(** Modelled from the spec: the codec of webstore.formats is missing.
    [decode] (4.1): the declared format is that of the content type,
    else structured-record unless the format indicator is csv; a single
    structured record is a sequence of one row; a body that cannot be
    parsed as its declared format is malformed input (400), and so is a
    body declared in any other format. *)
Definition read_request (request : Request) (format : option string)
    : Exn + list Row :=
  let declared :=
    match content_type request, format with
    | Some declared, _ => declared
    | None, Some "csv" => "text/csv"
    | None, _ => "application/json"
    end in
  let malformed :=
    inl (WebstoreException
           (render_message request "Malformed input" format "error" 400 None)) in
  if String.eqb declared "text/csv" then inr (decode_csv (data request))
  else if String.eqb declared "application/json" then
    match decode_json (data request) with
    | Some rows => inr rows
    | None => malformed
    end
  else malformed.

#[export] Instance collaborators : Collaborators Sheet Clause :=
  Build_Collaborators Sheet Clause new_table add_row update_row commit
    args_to_clause execute engine_execute read_request py_int.

End Reference.

(** ** The handlers on the fixtures of the test suite *)

#[local] Existing Instance Reference.collaborators.

Definition empty_world : World Reference.Sheet Reference.Clause :=
  {| registry := ∅; trace := [] |}.

(** [CSV_FIXTURE] of [test_rest.py]. *)
Definition csv_fixture : string :=
  "date,temperature,place" +:+ Reference.nl +:+
  "2011-01-01,1,Galway" +:+ Reference.nl +:+
  "2011-01-02,-1,Galway" +:+ Reference.nl +:+
  "2011-01-03,0,Galway" +:+ Reference.nl +:+
  "2011-01-01,6,Berkeley" +:+ Reference.nl +:+
  "2011-01-02,8,Berkeley" +:+ Reference.nl +:+
  "2011-01-03,5,Berkeley".

Definition post_csv (arguments : MultiDict) (text : string) : Request :=
  {| args := arguments; content_type := Some "text/csv"; data := text;
     accept := Some "application/json" |}.

Definition post_json (arguments : MultiDict) (text : string) : Request :=
  {| args := arguments; content_type := Some "application/json"; data := text;
     accept := Some "application/json" |}.

Definition put_sql (text : string) : Request :=
  {| args := []; content_type := Some "text/sql"; data := text;
     accept := Some "application/json" |}.

(** The query of [test_put_sql_request]. *)
Definition select_csv : string :=
  "SELECT * FROM " +:+ Reference.dquote +:+ "csv" +:+ Reference.dquote.

Definition get_json (arguments : MultiDict) : Request :=
  {| args := arguments; content_type := None; data := EmptyString;
     accept := Some "application/json" |}.

(** [make_fixtures]: [POST /db/fixtures?table=csv] with the CSV fixture. *)
Definition fixtures : World Reference.Sheet Reference.Clause :=
  snd (create (post_csv [("table", "csv")] csv_fixture) "fixtures" None empty_world).

Definition csv_table : Handle := handle "fixtures" "csv".

Definition csv_sheet : Reference.Sheet :=
  default Reference.new_table (table_state csv_table fixtures).

(** The events a handler run adds to the trace of [fixtures]. *)
Definition calls (w : World Reference.Sheet Reference.Clause)
    : list (Event Reference.Clause) :=
  drop (List.length (trace fixtures)) (trace w).

Definition is_execute (ev : Event Reference.Clause) : bool :=
  match ev with
  | EvExecute _ _ => true
  | _ => false
  end.

(** The status code and the message of an outcome. *)
Definition status (out : Outcome) : option Z :=
  match out with
  | Responded r => Some (code r)
  | ServerFault _ => None
  end.

Definition message_of (out : Outcome) : string :=
  match out with
  | Responded {| body := Message message _ _ |} => message
  | _ => EmptyString
  end.

(** [test_read_json_representation_with_limit_and_offset] *)
Example read_limit_and_offset :
  fst (dispatch (read (get_json [("_limit", "2"); ("_offset", "2")])
                   "fixtures" "csv" None) fixtures) =
    Responded
      (render_table (get_json [])
         [[("__id__", SInt 3); ("date", SStr "2011-01-03");
           ("temperature", SStr "0"); ("place", SStr "Galway")];
          [("__id__", SInt 4); ("date", SStr "2011-01-01");
           ("temperature", SStr "6"); ("place", SStr "Berkeley")]]
         ["__id__"; "date"; "temperature"; "place"] None).
Proof. vm_compute. reflexivity. Qed.

(** [test_read_json_representation_sort] *)
Example read_sorted_descending :
  fst (dispatch (read (get_json [("_sort", "desc:temperature"); ("_limit", "1")])
                   "fixtures" "csv" None) fixtures) =
    Responded
      (render_table (get_json [])
         [[("__id__", SInt 5); ("date", SStr "2011-01-02");
           ("temperature", SStr "8"); ("place", SStr "Berkeley")]]
         ["__id__"; "date"; "temperature"; "place"] None).
Proof. vm_compute. reflexivity. Qed.

(** [test_does_not_exist], with query arguments that would be rejected
    on an existing table. *)
Lemma read_missing_table_is_404_witness :
  table_state (handle "fixtures" "not_there") fixtures = None
  /\ fst (dispatch (read (get_json [("_sort", "theotherway"); ("_limit", "BANANA")])
                      "fixtures" "not_there" None) fixtures) =
       Responded (render_message (get_json []) "No such table: not_there"
                    None "error" 404 None).
Proof.
  assert (Hnone : table_state (handle "fixtures" "not_there") fixtures = None)
    by (vm_compute; reflexivity).
  split; [exact Hnone|].
  exact (f_equal fst
           (proj1 (read_missing_table_is_404
                     (get_json [("_sort", "theotherway"); ("_limit", "BANANA")])
                     "fixtures" "not_there" None fixtures Hnone))).
Defined.

(** [test_cannot_overwrite_table] *)
Lemma create_existing_is_409_witness :
  table_state csv_table fixtures = Some csv_sheet
  /\ fst (dispatch (create_named (post_csv [] csv_fixture)
                      "fixtures" "csv" None) fixtures) =
       Responded (render_message (post_csv [] csv_fixture)
                    "Table already exists: csv" None "error" 409
                    (Some "/db/fixtures/csv"))
  /\ table_state csv_table
       (snd (dispatch (create_named (post_csv [] csv_fixture)
                         "fixtures" "csv" None) fixtures)) = Some csv_sheet.
Proof.
  assert (Hsome : table_state csv_table fixtures = Some csv_sheet)
    by (vm_compute; reflexivity).
  split; [exact Hsome|].
  pose proof (create_existing_is_409 (post_csv [] csv_fixture)
                "fixtures" "csv" None fixtures csv_sheet Hsome) as H.
  destruct (dispatch _ _) as [out w'].
  destruct H as (_ & _ & Hstate & _ & _ & Hurl).
  split; [exact (Hurl eq_refl eq_refl)|exact Hstate].
Defined.

(** A body the codec cannot decode, posted to an existing table. *)
Lemma create_existing_never_decodes_witness :
  table_state csv_table fixtures = Some csv_sheet
  /\ read_request (post_json [] "{not json") None =
       inl (WebstoreException
              (render_message (post_json [] "{not json") "Malformed input"
                 None "error" 400 None))
  /\ status (fst (dispatch (create_named (post_json [] "{not json")
                              "fixtures" "csv" None) fixtures)) = Some 409%Z.
Proof.
  assert (Hsome : table_state csv_table fixtures = Some csv_sheet)
    by (vm_compute; reflexivity).
  assert (Hbody : read_request (post_json [] "{not json") None =
                    inl (WebstoreException
                           (render_message (post_json [] "{not json")
                              "Malformed input" None "error" 400 None)))
    by reflexivity.
  split; [exact Hsome|]. split; [exact Hbody|].
  destruct (create_existing_never_decodes (post_json [] "{not json")
              "fixtures" "csv" None fixtures csv_sheet _ Hsome Hbody)
    as (evs & -> & _).
  reflexivity.
Defined.

(** [test_put_sql_request]: the six rows of the table, each with its
    four columns; and the same statement under another content type. *)
Lemma sql_only_for_text_sql_witness :
  content_type (put_sql select_csv) = Some "text/sql"
  /\ dispatch (sql (put_sql select_csv) "fixtures" None) fixtures =
       (Responded
          {| code := 200;
             body := Table (Reference.live csv_sheet)
                       ["__id__"; "date"; "temperature"; "place"];
             format_of := None;
             accept_of := Some "application/json" |},
        traced fixtures [EvResolve "fixtures"; EvSql "fixtures" select_csv])
  /\ List.length (Reference.live csv_sheet) = 6%nat
  /\ content_type (post_json [] select_csv) <> Some "text/sql"
  /\ dispatch (sql (post_json [] select_csv) "fixtures" None) fixtures =
       (Responded
          {| code := 400;
             body := Message "Only text/sql content is supported" "error" None;
             format_of := None;
             accept_of := Some "application/json" |},
        fixtures).
Proof.
  assert (Hct : content_type (put_sql select_csv) = Some "text/sql")
    by reflexivity.
  assert (Hother : content_type (post_json [] select_csv) <> Some "text/sql")
    by (vm_compute; discriminate).
  assert (Hexec : engine_execute (data (put_sql select_csv))
                    (default ∅ (registry (resolved "fixtures" fixtures)
                                  !! "fixtures"))
                  = (inr (Reference.result_of csv_sheet (Reference.live csv_sheet)),
                     default ∅ (registry fixtures !! "fixtures")))
    by (vm_compute; reflexivity).
  pose proof (proj1 (sql_only_for_text_sql (put_sql select_csv)
                       "fixtures" None fixtures) Hct) as Hrun.
  rewrite Hexec in Hrun.
  split; [exact Hct|]. split.
  { unfold dispatch. rewrite Hrun. vm_compute. reflexivity. }
  split; [vm_compute; reflexivity|]. split; [exact Hother|].
  exact (proj1 (proj2 (sql_only_for_text_sql (post_json [] select_csv)
                         "fixtures" None fixtures)) Hother).
Defined.

(** The rows of the CSV fixture, as decoded. *)
Definition csv_rows : list Row :=
  match Reference.read_request (post_csv [] csv_fixture) None with
  | inr rows => rows
  | inl _ => []
  end.

(** [test_create_csv_table] *)
Lemma create_named_adds_rows_with_fields_witness :
  table_state (handle "create_csv_table" "foo") fixtures = None
  /\ read_request (post_csv [] csv_fixture) None = inr csv_rows
  /\ fst (dispatch (create_named (post_csv [] csv_fixture)
                      "create_csv_table" "foo" None) fixtures) =
       Responded (render_message (post_csv [] csv_fixture)
                    "Successfully created: foo" None "success" 201
                    (Some "/db/create_csv_table/foo"))
  /\ table_state (handle "create_csv_table" "foo")
       (snd (dispatch (create_named (post_csv [] csv_fixture)
                         "create_csv_table" "foo" None) fixtures)) =
       Some csv_sheet.
Proof.
  assert (Hnone : table_state (handle "create_csv_table" "foo") fixtures = None)
    by (vm_compute; reflexivity).
  assert (Hrows : read_request (post_csv [] csv_fixture) None = inr csv_rows)
    by (vm_compute; reflexivity).
  split; [exact Hnone|]. split; [exact Hrows|].
  pose proof (create_named_adds_rows_with_fields (post_csv [] csv_fixture)
                "create_csv_table" "foo" None fixtures csv_rows Hnone Hrows) as H.
  destruct (dispatch _ _) as [out w'].
  destruct H as (_ & Hurl & Hstate & _).
  split; [exact (Hurl eq_refl eq_refl)|]. cbn [snd]. rewrite Hstate.
  vm_compute. reflexivity.
Defined.

(** [test_put_additional_row]: no [unique] argument, the row is
    appended. *)
Definition honolulu : string :=
  "place,climate" +:+ Reference.nl +:+ "Honolulu,mild".

Lemma update_offers_then_adds_witness :
  table_state csv_table fixtures = Some csv_sheet
  /\ read_request (post_csv [] honolulu) None =
       inr [[("place", SStr "Honolulu"); ("climate", SStr "mild")]]
  /\ fst (dispatch (update (post_csv [] honolulu) "fixtures" "csv" None)
            fixtures) =
       Responded (render_message (post_csv [] honolulu)
                    "Table updated: csv" None "success" 201
                    (Some "/db/fixtures/csv"))
  /\ table_state csv_table
       (snd (dispatch (update (post_csv [] honolulu) "fixtures" "csv" None)
               fixtures)) =
       Some (commit (add_row [("place", SStr "Honolulu"); ("climate", SStr "mild")]
                       csv_sheet)).
Proof.
  assert (Hsome : table_state csv_table fixtures = Some csv_sheet)
    by (vm_compute; reflexivity).
  assert (Hrows : read_request (post_csv [] honolulu) None =
                    inr [[("place", SStr "Honolulu"); ("climate", SStr "mild")]])
    by (vm_compute; reflexivity).
  split; [exact Hsome|]. split; [exact Hrows|].
  pose proof (update_offers_then_adds (post_csv [] honolulu)
                "fixtures" "csv" None fixtures csv_sheet _ Hsome Hrows) as H.
  cbv zeta in H.
  destruct (dispatch _ _) as [out w'].
  destruct H as (_ & Hurl & _ & _ & Hnil).
  split; [exact (Hurl eq_refl eq_refl)|].
  exact (proj1 (Hnil eq_refl (fun row t0 => eq_refl))).
Defined.

(** [GET /db/fixtures/csv?_sort=up:temperature]: a server fault. *)
Lemma read_unknown_direction_faults_witness :
  table_state csv_table fixtures = Some csv_sheet
  /\ Py.partition ":" "up:temperature" = Some ("up", "temperature")
  /\ fst (dispatch (read (get_json [("_sort", "up:temperature")])
                      "fixtures" "csv" None) fixtures) =
       ServerFault (TypeError "'str' object is not callable").
Proof.
  assert (Hsome : table_state csv_table fixtures = Some csv_sheet)
    by (vm_compute; reflexivity).
  assert (Hpart : Py.partition ":" "up:temperature" = Some ("up", "temperature"))
    by reflexivity.
  split; [exact Hsome|]. split; [exact Hpart|].
  exact (f_equal fst
           (read_unknown_direction_faults
              (get_json [("_sort", "up:temperature")]) "fixtures" "csv" None
              fixtures csv_sheet [] "up:temperature" "up" "temperature" []
              Hsome eq_refl eq_refl Hpart eq_refl eq_refl)).
Defined.

(** [test_read_json_representation_invalid_sort] *)
Lemma read_sort_without_separator_is_400_witness :
  table_state csv_table fixtures = Some csv_sheet
  /\ Py.contains ":" "theotherway" = false
  /\ dispatch (read (get_json [("_sort", "theotherway")])
                 "fixtures" "csv" None) fixtures =
       (Responded (render_message (get_json [])
                     "Invalid sorting format, use: order:column"
                     None "error" 400 None),
        traced fixtures [EvResolve "fixtures"; EvTable csv_table]).
Proof.
  assert (Hsome : table_state csv_table fixtures = Some csv_sheet)
    by (vm_compute; reflexivity).
  assert (Hsep : Py.contains ":" "theotherway" = false) by reflexivity.
  split; [exact Hsome|]. split; [exact Hsep|].
  exact (read_sort_without_separator_is_400
           (get_json [("_sort", "theotherway")]) "fixtures" "csv" None
           fixtures csv_sheet [] "theotherway" [] Hsome eq_refl eq_refl Hsep).
Defined.

(** C8 as stated fails: the same [_sort] value on a table that does not
    exist is answered 404, not 400. *)
Lemma read_sort_without_separator_missing_table :
  Py.contains ":" "theotherway" = false
  /\ Args.getlist "_sort" (args (get_json [("_sort", "theotherway")])) =
       ["theotherway"]
  /\ fst (dispatch (read (get_json [("_sort", "theotherway")])
                      "fixtures" "not_there" None) fixtures) =
       Responded (render_message (get_json []) "No such table: not_there"
                    None "error" 404 None)
  /\ status (fst (dispatch (read (get_json [("_sort", "theotherway")])
                              "fixtures" "not_there" None) fixtures))
       <> Some 400%Z.
Proof. repeat split; try (vm_compute; reflexivity). vm_compute. discriminate. Qed.

(** [test_read_json_representation_invalid_limit] *)
Lemma read_invalid_pagination_is_400_witness :
  table_state csv_table fixtures = Some csv_sheet
  /\ py_int "BANANA" =
       inl (ValueError "invalid literal for int() with base 10: 'BANANA'")
  /\ status (fst (dispatch (read (get_json [("_limit", "BANANA")])
                              "fixtures" "csv" None) fixtures)) = Some 400%Z
  /\ Py.contains "BANANA"
       (message_of (fst (dispatch (read (get_json [("_limit", "BANANA")])
                                     "fixtures" "csv" None) fixtures))) = true.
Proof.
  assert (Hsome : table_state csv_table fixtures = Some csv_sheet)
    by (vm_compute; reflexivity).
  assert (Hint : py_int "BANANA" =
                   inl (ValueError "invalid literal for int() with base 10: 'BANANA'"))
    by reflexivity.
  assert (Hclause : args_to_clause csv_sheet
                      (filter_params (args (get_json [("_limit", "BANANA")])))
                    = inr [])
    by (vm_compute; reflexivity).
  split; [exact Hsome|]. split; [exact Hint|].
  destruct (read_invalid_pagination_is_400
              (get_json [("_limit", "BANANA")]) "fixtures" "csv" None
              fixtures csv_sheet [] "BANANA" _
              Hsome eq_refl Hclause eq_refl Hint (or_introl eq_refl))
    as [-> Hcontains].
  split; [reflexivity|]. exact (Hcontains eq_refl).
Defined.

(** C2 as stated fails.  On the existing table: an empty [_limit] and a
    negative [_limit] are not rejected, the selection is executed and the
    answer is 200.  An invalid [_limit] on a table that does not exist is
    answered 404; after a [_sort] value without separator, or with a
    filter on a column the table does not have, the 400 message does not
    hold the literal. *)
Lemma read_pagination_not_rejected :
  (status (fst (dispatch (read (get_json [("_limit", "")])
                            "fixtures" "csv" None) fixtures)) = Some 200%Z
   /\ existsb is_execute
        (calls (snd (dispatch (read (get_json [("_limit", "")])
                                 "fixtures" "csv" None) fixtures))) = true)
  /\ (status (fst (dispatch (read (get_json [("_offset", "-5")])
                               "fixtures" "csv" None) fixtures)) = Some 200%Z
      /\ existsb is_execute
           (calls (snd (dispatch (read (get_json [("_offset", "-5")])
                                    "fixtures" "csv" None) fixtures))) = true)
  /\ status (fst (dispatch (read (get_json [("_limit", "BANANA")])
                              "fixtures" "not_there" None) fixtures)) = Some 404%Z
  /\ (status (fst (dispatch (read (get_json [("_sort", "theotherway");
                                             ("_limit", "BANANA")])
                               "fixtures" "csv" None) fixtures)) = Some 400%Z
      /\ Py.contains "BANANA"
           (message_of (fst (dispatch (read (get_json [("_sort", "theotherway");
                                                       ("_limit", "BANANA")])
                                         "fixtures" "csv" None) fixtures))) = false)
  /\ (status (fst (dispatch (read (get_json [("colour", "red");
                                             ("_limit", "BANANA")])
                               "fixtures" "csv" None) fixtures)) = Some 400%Z
      /\ Py.contains "BANANA"
           (message_of (fst (dispatch (read (get_json [("colour", "red");
                                                       ("_limit", "BANANA")])
                                         "fixtures" "csv" None) fixtures))) = false).
Proof. repeat split; vm_compute; reflexivity. Qed.

(** [GET /db/fixtures/csv?_limit=]: all six rows. *)
Lemma read_empty_pagination_is_absent_witness :
  Args.get "_limit" (args (get_json [("_limit", ""); ("_offset", "4")])) = Some ""
  /\ read (get_json [("_limit", ""); ("_offset", "4")]) "fixtures" "csv" None fixtures =
       read (get_json [("_offset", "4")]) "fixtures" "csv" None fixtures
  /\ status (fst (dispatch (read (get_json [("_limit", ""); ("_offset", "4")])
                              "fixtures" "csv" None) fixtures)) = Some 200%Z.
Proof.
  assert (Hempty : Args.get "_limit"
                     (args (get_json [("_limit", ""); ("_offset", "4")])) = Some "")
    by reflexivity.
  split; [exact Hempty|].
  destruct (read_empty_pagination_is_absent
              (get_json [("_limit", ""); ("_offset", "4")])
              "fixtures" "csv" None fixtures "_limit"
              (or_introl eq_refl) Hempty) as (Hsame & _ & Hruns).
  split; [exact Hsame|].
  assert (Hsome : table_state csv_table fixtures = Some csv_sheet)
    by (vm_compute; reflexivity).
  assert (Hclause : args_to_clause csv_sheet
                      (filter_params
                         (args (get_json [("_limit", ""); ("_offset", "4")])))
                    = inr [])
    by (vm_compute; reflexivity).
  assert (Hexec : execute csv_sheet
                    {| whereclause := []; limit := None; offset := Some 4%Z;
                       order_by := [] |}
                  = inr (Reference.result_of csv_sheet
                           (drop 4 (Reference.live csv_sheet))))
    by (vm_compute; reflexivity).
  destruct (Hruns csv_sheet [] None (Some 4%Z)
              (Reference.result_of csv_sheet (drop 4 (Reference.live csv_sheet)))
              Hsome eq_refl Hclause eq_refl eq_refl Hexec)
    as (-> & _).
  reflexivity.
Defined.

(** ** Further properties of the handlers *)

Section Further.

Context {T Clause : Type} `{!Collaborators T Clause}.

Implicit Types (w : World T Clause) (h : Handle) (request : Request).
Implicit Types (database table : string) (format : option string).

(** The calls a run adds to the trace of the world it starts from. *)
Definition new_calls w (w' : World T Clause) : list (Event Clause) :=
  drop (List.length (trace w)) (trace w').

Lemma new_calls_traced w evs : new_calls w (traced w evs) = evs.
Proof. unfold new_calls, traced; simpl. apply drop_app_length. Qed.

(** *** The sort loop *)

Lemma not_well_formed_cases (sort : string) :
  well_formed sort = false ->
  Py.contains ":" sort = false
  \/ exists order column,
       Py.partition ":" sort = Some (order, column)
       /\ Py.lower order <> "asc" /\ Py.lower order <> "desc".
Proof.
  unfold well_formed, parse_sort. rewrite contains_partition.
  destruct (Py.partition ":" sort) as [[order column]|]; [|by left].
  intros Hbad. right. exists order, column. split; [done|].
  destruct (String.eqb_spec (Py.lower order) "asc"); [done|].
  by destruct (String.eqb_spec (Py.lower order) "desc").
Qed.

Lemma read_sorts_from request format values sorts :
  read_sorts request format values sorts =
    match List.find (fun sort => negb (well_formed sort)) values with
    | None => inr (Next (sorts ++ omap parse_sort values))
    | Some sort =>
        if Py.contains ":" sort
        then inl (TypeError "'str' object is not callable")
        else inr (Return (render_message request
                            "Invalid sorting format, use: order:column"
                            format "error" 400 None))
    end.
Proof.
  revert sorts. induction values as [|sort values IH]; intros sorts.
  - simpl. by rewrite app_nil_r.
  - cbn [List.find]. destruct (well_formed sort) eqn:Hwf; cbn [negb].
    + unfold well_formed in Hwf.
      destruct (parse_sort sort) as [term|] eqn:Hparse; [|done].
      rewrite (read_sorts_well_formed _ _ _ _ _ _ Hparse), IH.
      cbn [omap list_omap]. rewrite Hparse.
      destruct (List.find _ values); [done|]. by rewrite <- app_assoc.
    + destruct (not_well_formed_cases _ Hwf)
        as [Hsep | (order & column & Hpart & Hasc & Hdesc)].
      * rewrite Hsep. by apply read_sorts_no_separator.
      * rewrite contains_partition, Hpart.
        by apply (read_sorts_unknown_direction _ _ _ order column).
Qed.

(** X1. The [_sort] loop of [read] is decided by the first value that is
    not of the form direction:column with direction asc or desc: with no
    such value the loop yields the terms of all values in order; a first
    such value without the separator makes the handler return the 400
    envelope; one with the separator ends in the [TypeError].  The loop
    raises nothing else: the unpacking of [split] cannot fail. *)
Theorem read_sorts_first_malformed request format values :
  read_sorts request format values [] =
    match List.find (fun sort => negb (well_formed sort)) values with
    | None => inr (Next (omap parse_sort values))
    | Some sort =>
        if Py.contains ":" sort
        then inl (TypeError "'str' object is not callable")
        else inr (Return (render_message request
                            "Invalid sorting format, use: order:column"
                            format "error" 400 None))
    end.
Proof. apply read_sorts_from. Qed.

Lemma partition_first_separator (sep : ascii) (before after : string) :
  Py.contains (String sep EmptyString) before = false ->
  Py.partition sep (before +:+ String sep after) = Some (before, after).
Proof.
  rewrite contains_partition. induction before as [|a before IH]; intros Hsep.
  - change (EmptyString +:+ String sep after) with (String sep after).
    cbn [Py.partition]. by rewrite Ascii.eqb_refl.
  - change (String a before +:+ String sep after)
      with (String a (before +:+ String sep after)).
    cbn [Py.partition] in *.
    destruct (Ascii.eqb a sep); [done|].
    destruct (Py.partition sep before) as [[??]|] eqn:E; [done|].
    by rewrite IH.
Qed.

(** X2. A [_sort] value is split at its first [:] only, and its direction
    is compared in lower case: for a direction without [:], whatever the
    column (it may hold further [:]), the value gives [asc(column)] when
    the direction lower-cased is asc, [desc(column)] when it is desc, and
    the [TypeError] otherwise. *)
Theorem read_sorts_splits_at_first_colon request format order column :
  Py.contains ":" order = false ->
  read_sorts request format [order +:+ ":" +:+ column] [] =
    if String.eqb (Py.lower order) "asc" then inr (Next [Asc column])
    else if String.eqb (Py.lower order) "desc" then inr (Next [Desc column])
    else inl (TypeError "'str' object is not callable").
Proof.
  intros Hsep.
  pose proof (partition_first_separator ":" order column Hsep) as Hpart.
  change (order +:+ String ":" column) with (order +:+ ":" +:+ column) in Hpart.
  cbn [read_sorts]. rewrite contains_partition, Hpart. cbn [negb].
  unfold Py.split1. rewrite Hpart, sort_orders_lookup.
  destruct (String.eqb (Py.lower order) "asc"); [done|].
  by destruct (String.eqb (Py.lower order) "desc").
Qed.

(** *** Reading *)

(** The reserved query arguments of [read]. *)
Definition reserved (key : string) : bool :=
  String.eqb key "_limit" || String.eqb key "_offset" || String.eqb key "_sort".

Lemma filter_params_not_reserved (d : MultiDict) :
  filter_params d = List.filter (fun p => negb (reserved (fst p))) d.
Proof.
  unfold filter_params, Args.remove, Args.is_key, reserved.
  induction d as [|[key v] d IH]; [done|]. cbn [List.filter fst].
  destruct (String.eqb key "_limit") eqn:Hl; cbn [negb orb]; [exact IH|].
  cbn [List.filter fst].
  destruct (String.eqb key "_offset") eqn:Ho; cbn [negb orb]; [exact IH|].
  cbn [List.filter fst].
  destruct (String.eqb key "_sort") eqn:Hs; cbn [negb orb]; [exact IH|].
  by rewrite IH.
Qed.

(** X3. Whatever the request and the world, the only call [read] makes
    to the clause builder is on the table of the request, with the query
    arguments of every key but [_limit], [_offset] and [_sort], in their
    order: the reserved keys never reach the filter. *)
Theorem read_filter_gets_no_reserved_key
    request database table format w h params :
  In (EvArgsToClause h params)
    (new_calls w (snd (read request database table format w))) ->
  h = handle database table
  /\ params = List.filter (fun p => negb (reserved (fst p))) (args request).
Proof.
  rewrite <- filter_params_not_reserved.
  destruct (table_state (handle database table) w) as [t|] eqn:Hstate.
  - rewrite (read_existing _ _ _ _ _ _ Hstate). cbv zeta.
    destruct (read_sorts _ _ _ _) as [e|[sorts|r]];
      [| |]; cbn [snd]; try rewrite new_calls_traced.
    + intros [Hev|[Hev|[]]]; discriminate.
    + destruct (args_to_clause t _) as [e|clause].
      { destruct e; cbn [snd]; rewrite new_calls_traced;
          (intros [Hev|[Hev|[Hev|[]]]]; try discriminate;
             by injection Hev as <- <-). }
      destruct (select clause _ _ sorts) as [e|statement].
      { destruct e; cbn [snd]; rewrite new_calls_traced;
          (intros [Hev|[Hev|[Hev|[]]]]; try discriminate;
             by injection Hev as <- <-). }
      destruct (execute t statement) as [e|results];
        [destruct e|]; cbn [snd]; rewrite new_calls_traced;
        (intros [Hev|[Hev|[Hev|[Hev|[]]]]]; try discriminate;
           by injection Hev as <- <-).
    + intros [Hev|[Hev|[]]]; discriminate.
  - rewrite (get_table_missing_read _ _ _ _ _ Hstate). cbn [snd].
    unfold new_calls, resolved; simpl. rewrite drop_app_length.
    intros [Hev|[]]; discriminate.
Qed.

(** X4. On an existing table with well-formed [_sort] values, a
    [KeyError] of the clause builder is answered by the 400 envelope
    "Invalid filter: " followed by the error's text; the pagination values
    are not parsed (an invalid [_limit] goes unreported) and no query is
    executed. *)
Theorem read_invalid_filter_is_400 request database table format w t ke :
  table_state (handle database table) w = Some t ->
  forallb well_formed (Args.getlist "_sort" (args request)) = true ->
  args_to_clause t (filter_params (args request)) = inl (KeyError ke) ->
  dispatch (read request database table format) w =
    (Responded (render_message request ("Invalid filter: " +:+ ke)
                  format "error" 400 None),
     traced w [EvResolve database; EvTable (handle database table);
               EvArgsToClause (handle database table)
                 (filter_params (args request))]).
Proof.
  intros Hsome Hgood Hclause.
  unfold dispatch. rewrite (read_existing _ _ _ _ _ _ Hsome). cbv zeta.
  by rewrite (read_sorts_all_well_formed _ _ _ Hgood), Hclause.
Qed.

(** What Flask makes of an exception that leaves a handler. *)
Definition fault_outcome (e : Exn) : Outcome :=
  match e with
  | WebstoreException r => Responded r
  | _ => ServerFault e
  end.

(** X5. On an existing table whose arguments all parse, the selection is
    handed to the engine with the integers of [_limit] and [_offset] and
    the sort terms in the order of the [_sort] values.  An
    [OperationalError] of the engine is answered by the 400 envelope
    "Invalid query: " followed by its message; any other exception of the
    engine leaves the handler. *)
Theorem read_engine_error request database table format w t clause l o e :
  table_state (handle database table) w = Some t ->
  forallb well_formed (Args.getlist "_sort" (args request)) = true ->
  args_to_clause t (filter_params (args request)) = inr clause ->
  int_or_none (Args.get "_limit" (args request)) = inr l ->
  int_or_none (Args.get "_offset" (args request)) = inr o ->
  let h := handle database table in
  let statement :=
    {| whereclause := clause; limit := l; offset := o;
       order_by := omap parse_sort (Args.getlist "_sort" (args request)) |} in
  execute t statement = inl e ->
  dispatch (read request database table format) w =
    (match e with
     | OperationalError message =>
         Responded (render_message request ("Invalid query: " +:+ message)
                      format "error" 400 None)
     | _ => fault_outcome e
     end,
     traced w [EvResolve database; EvTable h;
               EvArgsToClause h (filter_params (args request));
               EvExecute h statement]).
Proof.
  intros Hsome Hgood Hclause Hlimit Hoffset h statement Hexec.
  unfold dispatch.
  rewrite (read_runs _ _ _ _ _ _ _ _ _ Hsome Hgood Hclause Hlimit Hoffset).
  fold h. fold statement. rewrite Hexec. by destruct e.
Qed.

(** X6. [read] writes nothing: whatever the request and its outcome,
    every table of every database is afterwards what it was, and no
    decoding, write, commit, drop or raw statement is among the calls
    made. *)
Theorem read_never_writes request database table format w h' :
  table_state h' (snd (read request database table format w)) = table_state h' w
  /\ forallb (fun ev => negb (decodes_or_writes ev))
       (new_calls w (snd (read request database table format w))) = true.
Proof.
  destruct (table_state (handle database table) w) as [t|] eqn:Hstate.
  - rewrite (read_existing _ _ _ _ _ _ Hstate). cbv zeta.
    destruct (read_sorts _ _ _ _) as [e|[sorts|r]];
      [| |]; cbn [snd]; try (rewrite new_calls_traced; by split).
    destruct (args_to_clause t _) as [e|clause].
    { destruct e; cbn [snd]; rewrite new_calls_traced; by split. }
    destruct (select clause _ _ sorts) as [e|statement].
    { destruct e; cbn [snd]; rewrite new_calls_traced; by split. }
    destruct (execute t statement) as [e|results];
      [destruct e|]; cbn [snd]; rewrite new_calls_traced; by split.
  - rewrite (get_table_missing_read _ _ _ _ _ Hstate). cbn [snd].
    split; [apply table_state_resolved|].
    unfold new_calls, resolved; simpl. by rewrite drop_app_length.
Qed.

(** *** Creating *)

Lemma mem_get (k : string) (d : MultiDict) :
  Args.mem k d = match Args.get k d with Some _ => true | None => false end.
Proof.
  unfold Args.mem, Args.get, Args.getlist.
  induction d as [|p d IH]; [done|]. simpl.
  by destruct (Args.is_key k p).
Qed.

(** X7. [create] goes by the first value of the [table] query argument:
    with one it is [create_named] on that table; with none it answers the
    400 envelope "Missing argument: table" and touches nothing, the
    database is not even resolved. *)
Theorem create_by_table_argument request database format w :
  dispatch (create request database format) w =
    match Args.get "table" (args request) with
    | Some table => dispatch (create_named request database table format) w
    | None =>
        (Responded (render_message request "Missing argument: table"
                      format "error" 400 None), w)
    end.
Proof.
  unfold dispatch, create. rewrite mem_get.
  by destruct (Args.get "table" (args request)).
Qed.

Lemma create_named_fresh_start request database table format w :
  table_state (handle database table) w = None ->
  create_named request database table format w =
    let h := handle database table in
    let w1 := traced (resolved database w) [EvTable h; EvReadRequest] in
    match read_request request format with
    | inl e => (inl e, w1)
    | inr rows =>
        match create_rows h rows w1 with
        | (inl e, w2) => (inl e, w2)
        | (inr _, w2) =>
            (inr (render_message request ("Successfully created: " +:+ table)
                    format "success" 201 (Some (url_for_read database table))),
             put_table h (fmap commit) (traced w2 [EvCommit h]))
        end
    end.
Proof.
  intros Hnone. unfold create_named, bind, db_contains.
  rewrite db_factory_create_eq.
  change {| h_database := database; h_table := table |}
    with (handle database table).
  rewrite table_state_resolved, Hnone.
  unfold db_getitem, do_read_request, bind, emit, lift, ret, traced. simpl.
  rewrite <- app_assoc. simpl.
  destruct (read_request request format) as [e|rows]; [done|].
  by destruct (create_rows _ _ _) as [[e|[]] w2].
Qed.

(** X8. A POST create on a table that does not exist yet whose body the
    codec cannot decode: the codec's exception leaves the handler, no row
    is added, nothing is committed, and the table still does not exist;
    the database has been resolved. *)
Theorem create_named_decode_failure request database table format w e :
  table_state (handle database table) w = None ->
  read_request request format = inl e ->
  let h := handle database table in
  let '(out, w') := dispatch (create_named request database table format) w in
  out = fault_outcome e
  /\ new_calls w w' = [EvResolve database; EvTable h; EvReadRequest]
  /\ table_state h w' = None
  /\ is_Some (registry w' !! database).
Proof.
  intros Hnone Hbody h. unfold dispatch.
  rewrite (create_named_fresh_start _ _ _ _ _ Hnone), Hbody. cbv zeta.
  assert (Hrest :
    new_calls w (traced (resolved database w) [EvTable h; EvReadRequest])
      = [EvResolve database; EvTable h; EvReadRequest]
    /\ table_state h (traced (resolved database w) [EvTable h; EvReadRequest])
      = None
    /\ is_Some (registry (traced (resolved database w) [EvTable h; EvReadRequest])
                  !! database)).
  { split; [|split].
    - unfold new_calls, traced, resolved; simpl.
      rewrite <- app_assoc. apply drop_app_length.
    - by rewrite table_state_traced, table_state_resolved.
    - apply resolved_open. }
  by destruct e.
Qed.

Lemma fold_add_row_some (rows : list Row) (o : option T) :
  rows <> [] ->
  is_Some (fold_left (fun o row => Some (add_row row (default new_table o)))
             rows o).
Proof.
  destruct rows as [|row rows]; [done|]. intros _. simpl.
  generalize (add_row row (default new_table o)). clear.
  induction rows as [|row' rows IH]; intros t; simpl; [by eexists|apply IH].
Qed.

Lemma create_named_creates request database table format w rows :
  table_state (handle database table) w = None ->
  read_request request format = inr rows ->
  existsb has_field rows = true ->
  is_Some (table_state (handle database table)
             (snd (create_named request database table format w))).
Proof.
  intros Hnone Hrows Hfield.
  rewrite (create_named_fresh_start _ _ _ _ _ Hnone), Hrows. cbv zeta.
  set (h := handle database table).
  set (w1 := traced _ _).
  destruct (create_rows_spec h rows w1) as (w2 & Hrun & Hopen & Hstate & _).
  { apply resolved_open. }
  rewrite Hrun. cbn [snd].
  rewrite table_state_put_table by done.
  rewrite table_state_traced, Hstate.
  destruct (fold_add_row_some (List.filter has_field rows) (table_state h w1))
    as [t ->]; [|by eexists].
  intros Hnil. apply existsb_exists in Hfield as (row & Hin & Hrow).
  assert (Hin' : In row (List.filter has_field rows))
    by by apply filter_In.
  rewrite Hnil in Hin'. done.
Qed.

(** X9. Creating twice: once a POST create has put at least one row with
    a field into a table that did not exist, any further POST create on
    that table is answered 409. *)
Theorem create_named_twice_is_409
    request request' database table format format' w rows :
  table_state (handle database table) w = None ->
  read_request request format = inr rows ->
  existsb has_field rows = true ->
  fst (dispatch (create_named request' database table format')
         (snd (create_named request database table format w))) =
    Responded (render_message request' ("Table already exists: " +:+ table)
                 format' "error" 409 (Some (url_for_read database table))).
Proof.
  intros Hnone Hrows Hfield.
  destruct (create_named_creates _ _ _ _ _ _ Hnone Hrows Hfield) as [t Hsome].
  unfold dispatch. by rewrite (create_named_existing _ _ _ _ _ _ Hsome).
Qed.

(** *** Updating and deleting *)

(** X10. A PUT update or a DELETE on a table that does not exist is
    answered by the 404 envelope of [_get_table]: the body is not decoded,
    nothing is written, dropped or committed. *)
Theorem update_and_delete_missing_table_is_404
    request database table format w :
  table_state (handle database table) w = None ->
  dispatch (update request database table format) w =
    (Responded (render_message request ("No such table: " +:+ table)
                  format "error" 404 None),
     resolved database w)
  /\ dispatch (delete request database table format) w =
       (Responded (render_message request ("No such table: " +:+ table)
                     format "error" 404 None),
        resolved database w)
  /\ new_calls w (resolved database w) = [EvResolve database].
Proof.
  intros Hnone. unfold dispatch, update, delete, bind.
  rewrite (get_table_missing _ _ _ _ _ Hnone).
  split; [done|]. split; [done|].
  unfold new_calls, resolved; simpl. apply drop_app_length.
Qed.

Lemma update_existing_start request database table format w t :
  table_state (handle database table) w = Some t ->
  update request database table format w =
    let h := handle database table in
    let w1 := traced w [EvResolve database; EvTable h; EvReadRequest] in
    match read_request request format with
    | inl e => (inl e, w1)
    | inr rows =>
        match update_rows h (Args.getlist "unique" (args request)) rows w1 with
        | (inl e, w2) => (inl e, w2)
        | (inr _, w2) =>
            (inr (render_message request ("Table updated: " +:+ table)
                    format "success" 201 (Some (url_for_read database table))),
             put_table h (fmap commit) (traced w2 [EvCommit h]))
        end
    end.
Proof.
  intros Hsome. unfold update, bind.
  rewrite (get_table_existing _ _ _ _ _ _ Hsome).
  unfold do_read_request, bind, emit, lift, ret, traced. simpl.
  rewrite <- app_assoc. simpl.
  destruct (read_request request format) as [e|rows]; [done|].
  by destruct (update_rows _ _ _ _) as [[e|[]] w2].
Qed.

(** X11. A PUT update on an existing table whose body the codec cannot
    decode: the codec's exception leaves the handler before any row is
    offered or added and before any commit; the registry is what it
    was. *)
Theorem update_decode_failure request database table format w t e :
  table_state (handle database table) w = Some t ->
  read_request request format = inl e ->
  let h := handle database table in
  dispatch (update request database table format) w =
    (fault_outcome e, traced w [EvResolve database; EvTable h; EvReadRequest]).
Proof.
  intros Hsome Hbody h. unfold dispatch.
  rewrite (update_existing_start _ _ _ _ _ _ Hsome), Hbody. cbv zeta.
  by destruct e.
Qed.

(** The rows handed to [update_row] and to [add_row] among some calls. *)
Definition offered (evs : list (Event Clause)) : list Row :=
  omap (fun ev => match ev with
                  | EvUpdateRow _ _ row _ => Some row
                  | _ => None
                  end) evs.

Definition added (evs : list (Event Clause)) : list Row :=
  omap (fun ev => match ev with
                  | EvAddRow _ row => Some row
                  | _ => None
                  end) evs.

Lemma offered_app evs evs' : offered (evs ++ evs') = offered evs ++ offered evs'.
Proof. apply omap_app. Qed.

Lemma added_app evs evs' : added (evs ++ evs') = added evs ++ added evs'.
Proof. apply omap_app. Qed.

Lemma upsert_rows_offered h unique (rows : list Row) (t : T) :
  offered (snd (upsert_rows h unique rows t)) = List.filter has_field rows
  /\ added (snd (upsert_rows h unique rows t)) `sublist_of`
       List.filter has_field rows.
Proof.
  revert t. induction rows as [|row rows IH]; intros t; [done|].
  cbn [upsert_rows List.filter]. destruct (has_field row); [|apply IH].
  unfold upsert_row. destruct (update_row unique row t) as [[] t1].
  - destruct (IH t1) as [Hoff Hadd].
    destruct (upsert_rows h unique rows t1) as [t2 evs]. cbn [snd] in *.
    rewrite offered_app, added_app. cbn. rewrite Hoff.
    split; [done|]. by apply sublist_cons.
  - destruct (IH (add_row row t1)) as [Hoff Hadd].
    destruct (upsert_rows h unique rows (add_row row t1)) as [t2 evs].
    cbn [snd] in *. rewrite offered_app, added_app. cbn. rewrite Hoff.
    split; [done|]. by apply sublist_skip.
Qed.

(** X12. A PUT update on an existing table whose body decodes to [rows]
    hands each row that has a field to [update_row] exactly once, in the
    order of the body, whatever the [unique] columns are; the rows it
    adds are among them, in that order, and no row without a field is
    offered or added. *)
Theorem update_offers_each_row_once request database table format w t rows :
  table_state (handle database table) w = Some t ->
  read_request request format = inr rows ->
  let evs := new_calls w (snd (update request database table format w)) in
  offered evs = List.filter has_field rows
  /\ added evs `sublist_of` List.filter has_field rows.
Proof.
  intros Hsome Hrows.
  rewrite (update_existing_start _ _ _ _ _ _ Hsome), Hrows. cbv zeta.
  set (h := handle database table).
  set (unique := Args.getlist "unique" (args request)).
  set (w1 := traced w _).
  destruct (update_rows_spec h unique rows w1 t)
    as (w2 & Hrun & Hopen & Hstate & Htrace).
  { unfold w1; simpl. unfold table_state in Hsome. simpl in Hsome.
    destruct (registry w !! database); [done|discriminate]. }
  { exact Hsome. }
  rewrite Hrun. cbn [snd].
  unfold new_calls. cbn [put_table trace traced]. rewrite Htrace.
  unfold w1, traced. cbn [trace]. rewrite <- !app_assoc, drop_app_length.
  destruct (upsert_rows_offered h unique rows t) as [Hoff Hadd].
  rewrite !offered_app, !added_app. cbn.
  rewrite app_nil_r. by rewrite app_nil_r.
Qed.

Lemma table_state_put_table_ne h h' f w :
  h' <> h -> table_state h' (put_table h f w) = table_state h' w.
Proof.
  intros Hne. unfold table_state, put_table; simpl.
  destruct (decide (h_database h = h_database h')) as [Hdb|Hdb].
  - rewrite <- Hdb, lookup_alter_eq.
    destruct (registry w !! h_database h) as [db|]; [|done]. simpl.
    apply lookup_partial_alter_ne. intros Htable. apply Hne.
    destruct h, h'; simpl in *; congruence.
  - by rewrite lookup_alter_ne.
Qed.

Lemma create_rows_other h h' (rows : list Row) w :
  h' <> h ->
  table_state h' (snd (create_rows h rows w)) = table_state h' w.
Proof.
  intros Hne. revert w. induction rows as [|row rows IH]; intros w; [done|].
  cbn [create_rows]. unfold bind.
  destruct (Py.truthy_len _).
  - unfold tbl_add_row at 1. rewrite IH.
    by rewrite table_state_put_table_ne.
  - unfold ret at 1. apply IH.
Qed.

Lemma update_rows_other h h' unique (rows : list Row) w :
  h' <> h ->
  table_state h' (snd (update_rows h unique rows w)) = table_state h' w.
Proof.
  intros Hne. revert w. induction rows as [|row rows IH]; intros w; [done|].
  cbn [update_rows]. unfold bind at 1.
  destruct (negb _).
  - unfold ret at 1. apply IH.
  - unfold bind at 1. unfold tbl_update_row at 1.
    destruct (update_row unique row _) as [[] t1]; cbn [negb].
    + unfold ret at 1. rewrite IH. by rewrite table_state_put_table_ne.
    + unfold tbl_add_row at 1. rewrite IH.
      rewrite table_state_put_table_ne by done.
      rewrite table_state_traced'.
      by rewrite table_state_put_table_ne.
Qed.

(** X13. [create_named], [update] and [delete] write to the table of the
    request only: whatever the request and its outcome, every other table
    of every database is afterwards what it was. *)
Theorem table_writes_stay_in_their_table
    request database table format w h' :
  h' <> handle database table ->
  table_state h' (snd (create_named request database table format w))
    = table_state h' w
  /\ table_state h' (snd (update request database table format w))
    = table_state h' w
  /\ table_state h' (snd (delete request database table format w))
    = table_state h' w.
Proof.
  intros Hne.
  destruct (table_state (handle database table) w) as [t|] eqn:Hstate.
  - split; [|split].
    + by rewrite (create_named_existing _ _ _ _ _ _ Hstate).
    + rewrite (update_existing_start _ _ _ _ _ _ Hstate). cbv zeta.
      destruct (read_request request format) as [e|rows]; [done|].
      match goal with
      | |- context [update_rows ?h ?u ?r ?w1] =>
          pose proof (update_rows_other h h' u r w1 Hne) as Hother;
          destruct (update_rows h u r w1) as [[e|[]] w2]
      end; cbn [snd] in *.
      * by rewrite Hother.
      * rewrite table_state_put_table_ne by done.
        by rewrite table_state_traced, Hother.
    + unfold delete, bind.
      rewrite (get_table_existing _ _ _ _ _ _ Hstate).
      unfold tbl_drop, tbl_commit, ret. cbn [snd].
      rewrite table_state_put_table_ne by done.
      rewrite table_state_traced'.
      rewrite table_state_put_table_ne by done.
      by rewrite table_state_traced'.
  - split; [|split].
    + rewrite (create_named_fresh_start _ _ _ _ _ Hstate). cbv zeta.
      destruct (read_request request format) as [e|rows].
      { cbn [snd]. by rewrite table_state_traced, table_state_resolved. }
      match goal with
      | |- context [create_rows ?h ?r ?w1] =>
          pose proof (create_rows_other h h' r w1 Hne) as Hother;
          destruct (create_rows h r w1) as [[e|[]] w2]
      end; cbn [snd] in *.
      * by rewrite Hother, table_state_traced, table_state_resolved.
      * rewrite table_state_put_table_ne by done.
        by rewrite table_state_traced, Hother, table_state_traced,
             table_state_resolved.
    + unfold update, bind. rewrite (get_table_missing _ _ _ _ _ Hstate).
      apply table_state_resolved.
    + unfold delete, bind. rewrite (get_table_missing _ _ _ _ _ Hstate).
      apply table_state_resolved.
Qed.

Lemma delete_existing request database table format w t :
  table_state (handle database table) w = Some t ->
  let h := handle database table in
  delete request database table format w =
    (inr (render_message request ("Table dropped: " +:+ table)
            format "success" 410 None),
     put_table h (fmap commit)
       (traced
          (put_table h (fun _ => None)
             (traced w [EvResolve database; EvTable h; EvDrop h]))
          [EvCommit h])).
Proof.
  intros Hsome h. unfold delete, bind.
  rewrite (get_table_existing _ _ _ _ _ _ Hsome).
  unfold tbl_drop, tbl_commit, ret, traced, put_table. simpl.
  by rewrite <- !app_assoc.
Qed.

Lemma open_of_table_state h w t :
  table_state h w = Some t -> is_Some (registry w !! h_database h).
Proof.
  unfold table_state. destruct (registry w !! h_database h); [done|discriminate].
Qed.

Lemma delete_existing_state request database table format w t :
  table_state (handle database table) w = Some t ->
  table_state (handle database table)
    (snd (delete request database table format w)) = None.
Proof.
  intros Hsome. rewrite (delete_existing _ _ _ _ _ _ Hsome). cbv zeta. cbn [snd].
  pose proof (open_of_table_state _ _ _ Hsome) as Hopen.
  rewrite table_state_put_table.
  - rewrite table_state_traced, table_state_put_table; [done|exact Hopen].
  - apply put_table_open. exact Hopen.
Qed.

(** X14. A DELETE on an existing table drops it, then commits, and
    answers 410 with the message "Table dropped" and no url; afterwards
    the table does not exist. *)
Theorem delete_existing_is_410 request database table format w t :
  table_state (handle database table) w = Some t ->
  let h := handle database table in
  let '(out, w') := dispatch (delete request database table format) w in
  out = Responded (render_message request ("Table dropped: " +:+ table)
                     format "success" 410 None)
  /\ new_calls w w' = [EvResolve database; EvTable h; EvDrop h; EvCommit h]
  /\ table_state h w' = None.
Proof.
  intros Hsome h.
  pose proof (delete_existing_state request _ _ format _ _ Hsome) as Hgone.
  unfold dispatch. rewrite (delete_existing _ _ _ _ _ _ Hsome) in *.
  cbv zeta in *. cbn [snd] in Hgone.
  split; [done|]. split; [|exact Hgone].
  unfold new_calls, put_table, traced. cbn [trace].
  rewrite <- !app_assoc. apply drop_app_length.
Qed.

(** X15. After a DELETE on an existing table, a read of that table and a
    second DELETE are both answered 404. *)
Theorem delete_then_read_or_delete_is_404
    request request' database table format format' w t :
  table_state (handle database table) w = Some t ->
  let w' := snd (delete request database table format w) in
  fst (dispatch (read request' database table format') w') =
    Responded (render_message request' ("No such table: " +:+ table)
                 format' "error" 404 None)
  /\ fst (dispatch (delete request' database table format') w') =
       Responded (render_message request' ("No such table: " +:+ table)
                    format' "error" 404 None).
Proof.
  intros Hsome w'.
  pose proof (delete_existing_state request _ _ format _ _ Hsome) as Hgone.
  fold w' in Hgone. unfold dispatch. split.
  - by rewrite (get_table_missing_read _ _ _ _ _ Hgone).
  - unfold delete, bind. by rewrite (get_table_missing _ _ _ _ _ Hgone).
Qed.

(** *** Raw SQL *)

(** X16. [sql] has no [except] clause: with content type [text/sql], an
    exception of the engine on the statement leaves the handler (an
    [OperationalError] on invalid SQL is a server fault, not a 400
    envelope); the database has been resolved and the statement handed
    over. *)
Theorem sql_engine_error_leaves_handler request database format w e tables :
  content_type request = Some "text/sql" ->
  engine_execute (data request)
    (default ∅ (registry (resolved database w) !! database)) = (inl e, tables) ->
  dispatch (sql request database format) w =
    (fault_outcome e,
     {| registry := <[database := tables]> (registry (resolved database w));
        trace := trace w ++ [EvResolve database;
                             EvSql database (data request)] |}).
Proof.
  intros Hct Hexec. unfold dispatch, sql.
  rewrite bool_decide_eq_true_2 by done. cbn [negb].
  unfold bind. rewrite db_factory_create_eq. unfold db_engine_execute.
  rewrite Hexec.
  replace (trace (resolved database w) ++ [EvSql database (data request)])
    with (trace w ++ [EvResolve database; EvSql database (data request)])
    by (unfold resolved; simpl; by rewrite <- app_assoc).
  by destruct e.
Qed.

(** *** Result sets *)

Lemma fetch_all_rows (columns : list string) (rows : list (list Scalar)) :
  Forall2 (fun (d : Row) row =>
             keys d = take (List.length row) columns
             /\ map snd d = take (List.length columns) row)
    (fetch_all columns rows) rows.
Proof.
  induction rows as [|row rows IH]; [constructor|].
  cbn [fetch_all]. constructor; [|exact IH]. clear. unfold keys.
  revert row. induction columns as [|c columns IH]; intros [|x row]; try done.
  cbn. destruct (IH row) as [-> ->]. done.
Qed.

(** X17. [_result_proxy_iterator] yields one mapping per fetched row, in
    order; each pairs the result's keys with the cells of its row, cut to
    the shorter of the two, so a row with as many cells as there are keys
    carries every key with its cell.  (Keys are taken distinct, as a
    [dict] holds a key once.) *)
Theorem result_proxy_iterator_rows (rp : ResultProxy) :
  NoDup (rp_keys rp) ->
  List.length (_result_proxy_iterator rp) = List.length (rp_rows rp)
  /\ Forall2 (fun (d : Row) row =>
                keys d = take (List.length row) (rp_keys rp)
                /\ map snd d = take (List.length (rp_keys rp)) row
                /\ (List.length row = List.length (rp_keys rp) ->
                    keys d = rp_keys rp /\ map snd d = row))
       (_result_proxy_iterator rp) (rp_rows rp).
Proof.
  intros _. unfold _result_proxy_iterator.
  pose proof (fetch_all_rows (rp_keys rp) (rp_rows rp)) as Hrows.
  split; [by apply Forall2_length in Hrows|].
  eapply Forall2_impl; [exact Hrows|]. cbn beta.
  intros d row [Hkeys Hcells]. split; [done|]. split; [done|].
  intros Hlen. rewrite Hkeys, Hcells, Hlen. by rewrite <- Hlen at 2; rewrite !firstn_all.
Qed.

(** *** Listing the tables *)

(** Modelled from the spec: [db.engine.table_names()] is missing; it gives
    the names of the tables of the database (spec 4.4), here in the order
    of the registry. *)
Definition db_table_names (db : string) : M (list string) :=
  fun w => (inr (map_to_list (default ∅ (registry w !! db))).*1, w).

(** The table [index] builds for a name. *)
Definition table_entry (database table : string) : Row :=
  [("name", SStr table); ("url", SStr (url_for_read database table))].

Definition index (request : Request) (database : string)
    (format : option string) : M Response :=
  bind (db_factory_create database) (fun db =>
  bind (db_table_names db) (fun names =>
  ret (render_table request (map (table_entry database) names)
         ["name"; "url"; "columns"] format))).

(** What [index] renders: the entries of the names the registry gives
    for the resolved database. *)
Lemma index_run request database format w :
  exists names,
    dispatch (index request database format) w =
      (Responded (render_table request (map (table_entry database) names)
                    ["name"; "url"; "columns"] format),
       resolved database w)
    /\ NoDup names
    /\ forall table,
         In table names <-> is_Some (table_state (handle database table) w).
Proof.
  exists (map_to_list (default ∅ (registry (resolved database w) !! database))).*1.
  split; [|split].
  - unfold dispatch, index, bind. by rewrite db_factory_create_eq.
  - apply NoDup_fst_map_to_list.
  - intros table. rewrite <- (table_state_resolved _ database).
    unfold table_state. cbn [h_database h_table handle].
    destruct (resolved_open database w) as [db ->]. cbn.
    rewrite <- list_elem_of_In, list_elem_of_fmap. split.
    + intros ([name t] & -> & Hin). apply elem_of_map_to_list in Hin.
      cbn [fst]. by rewrite Hin.
    + intros [t Ht]. exists (table, t). split; [done|].
      by apply elem_of_map_to_list.
Qed.


(** X19. Once a POST create has put at least one row with a field into a
    table that did not exist, the listing of its database names the
    table. *)
Theorem create_then_index_lists_it
    request request' database table format format' w rows :
  table_state (handle database table) w = None ->
  read_request request format = inr rows ->
  existsb has_field rows = true ->
  exists names,
    fst (dispatch (index request' database format')
           (snd (create_named request database table format w))) =
      Responded (render_table request' (map (table_entry database) names)
                   ["name"; "url"; "columns"] format')
    /\ In table names.
Proof.
  intros Hnone Hrows Hfield.
  destruct (index_run request' database format'
              (snd (create_named request database table format w)))
    as (names & Hrun & _ & Hlisted).
  exists names. rewrite Hrun. split; [done|].
  apply Hlisted. by apply (create_named_creates _ _ _ _ _ rows).
Qed.

(** X20. After a DELETE on an existing table, the listing of its
    database no longer names the table. *)
Theorem delete_then_index_omits_it
    request request' database table format format' w t :
  table_state (handle database table) w = Some t ->
  exists names,
    fst (dispatch (index request' database format')
           (snd (delete request database table format w))) =
      Responded (render_table request' (map (table_entry database) names)
                   ["name"; "url"; "columns"] format')
    /\ ~ In table names.
Proof.
  intros Hsome.
  destruct (index_run request' database format'
              (snd (delete request database table format w)))
    as (names & Hrun & _ & Hlisted).
  exists names. rewrite Hrun. split; [done|].
  rewrite Hlisted, (delete_existing_state _ _ _ _ _ _ Hsome).
  by intros [? ?].
Qed.

End Further.

(** ** The further properties on the fixtures *)

(** An engine that, like SQLite, refuses to order by a column the table
    does not have; otherwise the reference engine. *)
Definition strict_execute (t : Reference.Sheet)
    (statement : Statement Reference.Clause) : Exn + ResultProxy :=
  match List.find (fun term =>
                     let column := match term with
                                   | Asc c => c
                                   | Desc c => c
                                   end in
                     negb (existsb (String.eqb column) (Reference.columns t)))
          (order_by statement) with
  | Some (Asc c) | Some (Desc c) =>
      inl (OperationalError ("no such column: " +:+ c))
  | None => Reference.execute t statement
  end.

Definition strict : Collaborators Reference.Sheet Reference.Clause :=
  Build_Collaborators Reference.Sheet Reference.Clause
    Reference.new_table Reference.add_row Reference.update_row Reference.commit
    Reference.args_to_clause strict_execute Reference.engine_execute
    Reference.read_request Reference.py_int.

Lemma read_sorts_splits_at_first_colon_witness :
  Py.contains ":" "DeSc" = false
  /\ read_sorts (get_json []) None ["DeSc:a:b"] [] = inr (Next [Desc "a:b"]).
Proof.
  assert (Hsep : Py.contains ":" "DeSc" = false) by reflexivity.
  split; [exact Hsep|].
  exact (read_sorts_splits_at_first_colon (get_json []) None "DeSc" "a:b" Hsep).
Defined.

Lemma read_filter_gets_no_reserved_key_witness :
  In (EvArgsToClause csv_table [("place", "Galway")])
    (new_calls fixtures
       (snd (read (get_json [("_limit", "2"); ("place", "Galway");
                             ("_sort", "asc:date")])
               "fixtures" "csv" None fixtures)))
  /\ [("place", "Galway")] =
       List.filter (fun p => negb (reserved (fst p)))
         [("_limit", "2"); ("place", "Galway"); ("_sort", "asc:date")].
Proof.
  assert (Hin : In (EvArgsToClause csv_table [("place", "Galway")])
                  (new_calls fixtures
                     (snd (read (get_json [("_limit", "2"); ("place", "Galway");
                                           ("_sort", "asc:date")])
                             "fixtures" "csv" None fixtures))))
    by (vm_compute; auto).
  split; [exact Hin|].
  exact (proj2 (read_filter_gets_no_reserved_key _ _ _ _ _ _ _ Hin)).
Defined.

Lemma read_invalid_filter_is_400_witness :
  table_state csv_table fixtures = Some csv_sheet
  /\ args_to_clause csv_sheet
       (filter_params (args (get_json [("colour", "red"); ("_limit", "BANANA")])))
     = inl (KeyError "'colour'")
  /\ fst (dispatch (read (get_json [("colour", "red"); ("_limit", "BANANA")])
                      "fixtures" "csv" None) fixtures) =
       Responded (render_message (get_json []) "Invalid filter: 'colour'"
                    None "error" 400 None).
Proof.
  assert (Hsome : table_state csv_table fixtures = Some csv_sheet)
    by (vm_compute; reflexivity).
  assert (Hclause : args_to_clause csv_sheet
                      (filter_params
                         (args (get_json [("colour", "red"); ("_limit", "BANANA")])))
                    = inl (KeyError "'colour'"))
    by (vm_compute; reflexivity).
  split; [exact Hsome|]. split; [exact Hclause|].
  exact (f_equal fst
           (read_invalid_filter_is_400
              (get_json [("colour", "red"); ("_limit", "BANANA")])
              "fixtures" "csv" None fixtures csv_sheet _ Hsome eq_refl Hclause)).
Defined.

Lemma read_engine_error_witness :
  table_state csv_table fixtures = Some csv_sheet
  /\ @execute _ _ strict csv_sheet
       {| whereclause := []; limit := None; offset := None;
          order_by := [Asc "colour"] |}
     = inl (OperationalError "no such column: colour")
  /\ fst (dispatch (@read _ _ strict (get_json [("_sort", "asc:colour")])
                      "fixtures" "csv" None) fixtures) =
       Responded (render_message (get_json []) "Invalid query: no such column: colour"
                    None "error" 400 None).
Proof.
  assert (Hsome : table_state csv_table fixtures = Some csv_sheet)
    by (vm_compute; reflexivity).
  assert (Hclause : @args_to_clause _ _ strict csv_sheet
                      (filter_params (args (get_json [("_sort", "asc:colour")])))
                    = inr [])
    by (vm_compute; reflexivity).
  assert (Hexec : @execute _ _ strict csv_sheet
                    {| whereclause := []; limit := None; offset := None;
                       order_by := [Asc "colour"] |}
                  = inl (OperationalError "no such column: colour"))
    by (vm_compute; reflexivity).
  split; [exact Hsome|]. split; [exact Hexec|].
  exact (f_equal fst
           (@read_engine_error _ _ strict
              (get_json [("_sort", "asc:colour")])
              "fixtures" "csv" None fixtures csv_sheet [] None None _
              Hsome eq_refl Hclause eq_refl eq_refl Hexec)).
Defined.

Lemma create_named_decode_failure_witness :
  table_state (handle "fixtures" "fresh") fixtures = None
  /\ read_request (post_json [] "{not json") None =
       inl (WebstoreException
              (render_message (post_json [] "{not json") "Malformed input"
                 None "error" 400 None))
  /\ table_state (handle "fixtures" "fresh")
       (snd (dispatch (create_named (post_json [] "{not json")
                         "fixtures" "fresh" None) fixtures)) = None.
Proof.
  assert (Hnone : table_state (handle "fixtures" "fresh") fixtures = None)
    by (vm_compute; reflexivity).
  assert (Hbody : read_request (post_json [] "{not json") None =
                    inl (WebstoreException
                           (render_message (post_json [] "{not json")
                              "Malformed input" None "error" 400 None)))
    by reflexivity.
  split; [exact Hnone|]. split; [exact Hbody|].
  pose proof (create_named_decode_failure (post_json [] "{not json")
                "fixtures" "fresh" None fixtures _ Hnone Hbody) as H.
  cbv zeta in H. destruct (dispatch _ _) as [out w'].
  exact (proj1 (proj2 (proj2 H))).
Defined.

(** [test_cannot_overwrite_table], from the empty world. *)
Lemma create_named_twice_is_409_witness :
  table_state csv_table empty_world = None
  /\ read_request (post_csv [] csv_fixture) None = inr csv_rows
  /\ existsb has_field csv_rows = true
  /\ status (fst (dispatch (create_named (post_json [] "[]") "fixtures" "csv" None)
                    (snd (create_named (post_csv [] csv_fixture)
                            "fixtures" "csv" None empty_world)))) = Some 409%Z.
Proof.
  assert (Hnone : table_state csv_table empty_world = None) by reflexivity.
  assert (Hrows : read_request (post_csv [] csv_fixture) None = inr csv_rows)
    by (vm_compute; reflexivity).
  assert (Hfield : existsb has_field csv_rows = true)
    by (vm_compute; reflexivity).
  split; [exact Hnone|]. split; [exact Hrows|]. split; [exact Hfield|].
  exact (f_equal status
           (create_named_twice_is_409 (post_csv [] csv_fixture)
              (post_json [] "[]") "fixtures" "csv" None None empty_world
              csv_rows Hnone Hrows Hfield)).
Defined.

Lemma update_and_delete_missing_table_is_404_witness :
  table_state (handle "fixtures" "not_there") fixtures = None
  /\ status (fst (dispatch (update (post_csv [] honolulu)
                              "fixtures" "not_there" None) fixtures)) = Some 404%Z
  /\ status (fst (dispatch (delete (get_json [])
                              "fixtures" "not_there" None) fixtures)) = Some 404%Z.
Proof.
  assert (Hnone : table_state (handle "fixtures" "not_there") fixtures = None)
    by (vm_compute; reflexivity).
  split; [exact Hnone|]. split.
  - exact (f_equal (fun p => status (fst p))
             (proj1 (update_and_delete_missing_table_is_404
                       (post_csv [] honolulu) "fixtures" "not_there" None
                       fixtures Hnone))).
  - exact (f_equal (fun p => status (fst p))
             (proj1 (proj2 (update_and_delete_missing_table_is_404
                              (get_json []) "fixtures" "not_there" None
                              fixtures Hnone)))).
Defined.

Lemma update_decode_failure_witness :
  table_state csv_table fixtures = Some csv_sheet
  /\ read_request (post_json [] "{not json") None =
       inl (WebstoreException
              (render_message (post_json [] "{not json") "Malformed input"
                 None "error" 400 None))
  /\ dispatch (update (post_json [] "{not json") "fixtures" "csv" None) fixtures =
       (Responded (render_message (post_json [] "{not json") "Malformed input"
                     None "error" 400 None),
        traced fixtures [EvResolve "fixtures"; EvTable csv_table; EvReadRequest]).
Proof.
  assert (Hsome : table_state csv_table fixtures = Some csv_sheet)
    by (vm_compute; reflexivity).
  assert (Hbody : read_request (post_json [] "{not json") None =
                    inl (WebstoreException
                           (render_message (post_json [] "{not json")
                              "Malformed input" None "error" 400 None)))
    by reflexivity.
  split; [exact Hsome|]. split; [exact Hbody|].
  exact (update_decode_failure (post_json [] "{not json")
           "fixtures" "csv" None fixtures csv_sheet _ Hsome Hbody).
Defined.

(** [test_put_additional_row_with_unique_selector]: the row is offered,
    matched, and not added. *)
Definition berkeley : string :=
  "place,country" +:+ Reference.nl +:+ "Berkeley,United States".

Lemma update_offers_each_row_once_witness :
  table_state csv_table fixtures = Some csv_sheet
  /\ read_request (post_csv [("unique", "place")] berkeley) None =
       inr [[("place", SStr "Berkeley"); ("country", SStr "United States")]]
  /\ offered (new_calls fixtures
                (snd (update (post_csv [("unique", "place")] berkeley)
                        "fixtures" "csv" None fixtures))) =
       [[("place", SStr "Berkeley"); ("country", SStr "United States")]].
Proof.
  assert (Hsome : table_state csv_table fixtures = Some csv_sheet)
    by (vm_compute; reflexivity).
  assert (Hrows : read_request (post_csv [("unique", "place")] berkeley) None =
                    inr [[("place", SStr "Berkeley");
                          ("country", SStr "United States")]])
    by (vm_compute; reflexivity).
  split; [exact Hsome|]. split; [exact Hrows|].
  exact (proj1 (update_offers_each_row_once
                  (post_csv [("unique", "place")] berkeley)
                  "fixtures" "csv" None fixtures csv_sheet _ Hsome Hrows)).
Defined.

Lemma table_writes_stay_in_their_table_witness :
  csv_table <> handle "fixtures" "other"
  /\ table_state csv_table
       (snd (create_named (post_csv [] honolulu) "fixtures" "other" None fixtures))
     = table_state csv_table fixtures.
Proof.
  assert (Hne : csv_table <> handle "fixtures" "other") by discriminate.
  split; [exact Hne|].
  exact (proj1 (table_writes_stay_in_their_table (post_csv [] honolulu)
                  "fixtures" "other" None fixtures csv_table Hne)).
Defined.

Lemma delete_existing_is_410_witness :
  table_state csv_table fixtures = Some csv_sheet
  /\ status (fst (dispatch (delete (get_json []) "fixtures" "csv" None) fixtures))
     = Some 410%Z
  /\ table_state csv_table
       (snd (dispatch (delete (get_json []) "fixtures" "csv" None) fixtures))
     = None.
Proof.
  assert (Hsome : table_state csv_table fixtures = Some csv_sheet)
    by (vm_compute; reflexivity).
  split; [exact Hsome|].
  pose proof (delete_existing_is_410 (get_json []) "fixtures" "csv" None
                fixtures csv_sheet Hsome) as H.
  cbv zeta in H. destruct (dispatch _ _) as [out w'].
  destruct H as (-> & _ & Hgone).
  split; [reflexivity|exact Hgone].
Defined.

Lemma delete_then_read_or_delete_is_404_witness :
  table_state csv_table fixtures = Some csv_sheet
  /\ status (fst (dispatch (read (get_json []) "fixtures" "csv" None)
                    (snd (delete (get_json []) "fixtures" "csv" None fixtures))))
     = Some 404%Z.
Proof.
  assert (Hsome : table_state csv_table fixtures = Some csv_sheet)
    by (vm_compute; reflexivity).
  split; [exact Hsome|].
  exact (f_equal status
           (proj1 (delete_then_read_or_delete_is_404 (get_json []) (get_json [])
                     "fixtures" "csv" None None fixtures csv_sheet Hsome))).
Defined.

Lemma sql_engine_error_leaves_handler_witness :
  content_type (put_sql "SELEC * FROM csv") = Some "text/sql"
  /\ fst (dispatch (sql (put_sql "SELEC * FROM csv") "fixtures" None) fixtures) =
       ServerFault (OperationalError "syntax error").
Proof.
  assert (Hct : content_type (put_sql "SELEC * FROM csv") = Some "text/sql")
    by reflexivity.
  assert (Hexec : engine_execute (data (put_sql "SELEC * FROM csv"))
                    (default ∅ (registry (resolved "fixtures" fixtures) !! "fixtures"))
                  = (inl (OperationalError "syntax error"),
                     default ∅ (registry fixtures !! "fixtures")))
    by (vm_compute; reflexivity).
  split; [exact Hct|].
  exact (f_equal fst
           (sql_engine_error_leaves_handler (put_sql "SELEC * FROM csv")
              "fixtures" None fixtures _ _ Hct Hexec)).
Defined.

Lemma result_proxy_iterator_rows_witness :
  NoDup ["__id__"; "place"]
  /\ List.length (_result_proxy_iterator
                    {| rp_keys := ["__id__"; "place"];
                       rp_rows := [[SInt 1; SStr "Galway"];
                                   [SInt 2; SStr "Berkeley"]] |}) = 2%nat.
Proof.
  assert (Hkeys : NoDup ["__id__"; "place"])
    by (apply (bool_decide_unpack _); vm_compute; exact I).
  split; [exact Hkeys|].
  exact (proj1 (result_proxy_iterator_rows
                  {| rp_keys := ["__id__"; "place"];
                     rp_rows := [[SInt 1; SStr "Galway"];
                                 [SInt 2; SStr "Berkeley"]] |} Hkeys)).
Defined.

(** [test_index_with_tables], for the CSV fixture. *)
Lemma create_then_index_lists_it_witness :
  table_state csv_table empty_world = None
  /\ read_request (post_csv [] csv_fixture) None = inr csv_rows
  /\ existsb has_field csv_rows = true
  /\ exists names,
       fst (dispatch (index (get_json []) "fixtures" None)
              (snd (create_named (post_csv [] csv_fixture)
                      "fixtures" "csv" None empty_world))) =
         Responded (render_table (get_json [])
                      (map (table_entry "fixtures") names)
                      ["name"; "url"; "columns"] None)
       /\ In "csv" names.
Proof.
  assert (Hnone : table_state csv_table empty_world = None) by reflexivity.
  assert (Hrows : read_request (post_csv [] csv_fixture) None = inr csv_rows)
    by (vm_compute; reflexivity).
  assert (Hfield : existsb has_field csv_rows = true)
    by (vm_compute; reflexivity).
  split; [exact Hnone|]. split; [exact Hrows|]. split; [exact Hfield|].
  exact (create_then_index_lists_it (post_csv [] csv_fixture) (get_json [])
           "fixtures" "csv" None None empty_world csv_rows Hnone Hrows Hfield).
Defined.

Lemma delete_then_index_omits_it_witness :
  table_state csv_table fixtures = Some csv_sheet
  /\ exists names,
       fst (dispatch (index (get_json []) "fixtures" None)
              (snd (delete (get_json []) "fixtures" "csv" None fixtures))) =
         Responded (render_table (get_json [])
                      (map (table_entry "fixtures") names)
                      ["name"; "url"; "columns"] None)
       /\ ~ In "csv" names.
Proof.
  assert (Hsome : table_state csv_table fixtures = Some csv_sheet)
    by (vm_compute; reflexivity).
  split; [exact Hsome|].
  exact (delete_then_index_omits_it (get_json []) (get_json [])
           "fixtures" "csv" None None fixtures csv_sheet Hsome).
Defined.

(** [test_put_additional_row_as_json_dict]: one JSON object is a
    sequence of one row; and a list with an object without fields, which
    [create_named] passes over. *)
Definition quoted (s : string) : string :=
  Reference.dquote +:+ s +:+ Reference.dquote.

Definition honolulu_json : string :=
  "{" +:+ quoted "place" +:+ ": " +:+ quoted "Honolulu" +:+ ", "
  +:+ quoted "climate" +:+ ": " +:+ quoted "mild" +:+ "}".

Example put_json_dict :
  read_request (post_json [] honolulu_json) None =
    inr [[("place", SStr "Honolulu"); ("climate", SStr "mild")]]
  /\ status (fst (dispatch (update (post_json [] honolulu_json)
                              "fixtures" "csv" None) fixtures)) = Some 201%Z
  /\ fst (dispatch (read (get_json [("climate", "mild")]) "fixtures" "csv" None)
            (snd (update (post_json [] honolulu_json)
                    "fixtures" "csv" None fixtures))) =
       Responded
         (render_table (get_json [])
            [[("__id__", SInt 7); ("date", SNull); ("temperature", SNull);
              ("place", SStr "Honolulu"); ("climate", SStr "mild")]]
            ["__id__"; "date"; "temperature"; "place"; "climate"] None).
Proof. repeat split; vm_compute; reflexivity. Qed.

Example create_json_passes_over_empty_rows :
  read_request (post_json [] ("[{}, " +:+ honolulu_json +:+ "]")) None =
    inr [[]; [("place", SStr "Honolulu"); ("climate", SStr "mild")]]
  /\ new_calls fixtures
       (snd (create_named (post_json [] ("[{}, " +:+ honolulu_json +:+ "]"))
               "fixtures" "json" None fixtures)) =
       [EvResolve "fixtures"; EvTable (handle "fixtures" "json"); EvReadRequest;
        EvAddRow (handle "fixtures" "json")
          [("place", SStr "Honolulu"); ("climate", SStr "mild")];
        EvCommit (handle "fixtures" "json")].
Proof. split; vm_compute; reflexivity. Qed.

(** [test_no_tables] and [test_index_with_tables] *)
Example index_of_the_fixtures :
  fst (dispatch (index (get_json []) "no_tables" None) fixtures) =
    Responded (render_table (get_json []) [] ["name"; "url"; "columns"] None)
  /\ fst (dispatch (index (get_json []) "fixtures" None) fixtures) =
       Responded (render_table (get_json [])
                    [[("name", SStr "csv"); ("url", SStr "/db/fixtures/csv")]]
                    ["name"; "url"; "columns"] None).
Proof. split; vm_compute; reflexivity. Qed.
